(** * Verification of the Numba CUDA tutorial examples

    A shallow embedding of
    - [session-5/examples/cupy_emm_plugin.py] (the pool-backed External
      Memory Management plugin [CuPyNumbaManager]),
    - [session-5/examples/simple_emm_plugin.py] (the direct plugin
      [MyEMMPlugin] on [cudaMalloc]/[cudaFree]),
    - [session-1/mandelbrot/solutions/mandel_cuda.py] ([mandel] and the
      [create_fractal] kernel),
    - [session-4/exercise/quaternion_solution.py] ([Quaternion.__add__] and
      its CUDA lowering [cuda_quaternion_add]),
    and the properties of the design document that these sources decide. *)

From Stdlib Require Import ZArith List Lia String Uint63 Floats.
From stdpp Require Import base decidable option list gmap fin_maps pretty strings.
Import ListNotations.

Local Open Scope Z_scope.

(** ** Python exceptions and outcomes *)

(** The exceptions the modelled code can raise.  [PoolError] stands for
    whatever the external pool's [malloc] raises (CuPy's out-of-memory
    error, or an overflow on a size it rejects). *)
Inductive exn : Type :=
| AttributeError (msg : string)
| KeyError (key : Z)
| RuntimeError (msg : string)
| PoolError (msg : string).

Inductive result (A : Type) : Type :=
| Ok (a : A)
| Raise (e : exn).
Arguments Ok {A} a.
Arguments Raise {A} e.

Definition is_Ok {A} (r : result A) : bool :=
  match r with Ok _ => true | Raise _ => false end.

(** [ctypes.c_uint64(int(v))] and a [c_size_t] argument: ctypes converts a
    Python int with a mask, without an overflow check. *)
Definition c_uint64 (v : Z) : Z := v mod 2 ^ 64.
Definition c_size_t (v : Z) : Z := v mod 2 ^ 64.

(** ** The pool-backed plugin: [cupy_emm_plugin.py] *)

Module CuPy.

(** [cupy.cuda.MemoryPointer]: the plugin reads only its [ptr]. *)
Record cp_MemoryPointer : Type := { ptr : Z }.

(** The interface of CuPy's memory pool as the plugin uses it.  [malloc]
    answers with an allocation record or raises; [pool_free] is what the
    pool does when the last reference to an allocation record disappears
    (the record is garbage-collected and its block goes back to the pool). *)
Class MemoryPool (P : Type) : Type := {
  malloc : Z -> P -> (cp_MemoryPointer + exn) * P;
  pool_free : cp_MemoryPointer -> P -> P;
  free_all_blocks : P -> P;
  free_bytes : P -> Z;
  total_bytes : P -> Z
}.

(** Calls that reach the pool, recorded in the order they happen. *)
Inductive pool_call : Type :=
| CallMalloc (nbytes : Z)
| CallFree (p : Z)
| CallFreeAllBlocks
| CallFreeBytes
| CallTotalBytes.

Global Instance pool_call_eq_dec : EqDecision pool_call.
Proof. solve_decision. Defined.

(** The two lines the plugin prints when [LOGGING] is set:
    ["Allocated %d bytes at %x"] and ["Freeing %d bytes at %x"]. *)
Inductive log_line : Type :=
| Allocated (nbytes p : Z)
| Freeing (nbytes p : Z).

(** The closure returned by [_make_finalizer]: the captured [nbytes], [ptr]
    and [logging].  The captured [allocations] is the manager's own dict
    (the attribute is bound once, in [__init__]), so running the closure
    acts on the manager's table. *)
Record finalizer : Type := {
  fin_nbytes : Z;
  fin_ptr : Z;
  fin_logging : bool
}.

(** Numba's [MemoryPointer] as built by [memalloc]; [memsize] is its [size]
    attribute, and the context it is given plays no part here.  [alive] is
    the state of the [weakref.finalize] object wrapping the finalizer: it is
    called at most once. *)
Record MemoryPointer : Type := {
  device_pointer : Z;
  memsize : Z;
  _finalizer : finalizer;
  alive : bool
}.

Record MemoryInfo : Type := { free : Z; total : Z }.

(** [self._mp] is [None] or a reference to the process-wide default pool. *)
Inductive pool_ref : Type := DefaultMemoryPool.

Record CuPyNumbaManager : Type := {
  _logging : bool;
  _allocations : gmap Z cp_MemoryPointer;
  _mp : option pool_ref;
  (** The superclass's [deallocations.disable()] depth, entered by
      [defer_cleanup]; it governs pinned and mapped host memory only. *)
  _disable_count : nat
}.

(** The addresses of the pointers whose finalizer has not been called yet,
    and of those whose finalizer has. *)
Definition live (l : list MemoryPointer) : list Z :=
  fin_ptr <$> (_finalizer <$> filter (fun mp => alive mp = true) l).

Definition dead (l : list MemoryPointer) : list Z :=
  fin_ptr <$> (_finalizer <$> filter (fun mp => alive mp = false) l).

Section Manager.
Context {P : Type} `{MemoryPool P}.

(** The manager together with what it shares with its surroundings: the
    pool, the standard output, the pointers handed to the host runtime. *)
Record world : Type := {
  self : CuPyNumbaManager;
  pool : P;
  pool_calls : list pool_call;
  stdout : list log_line;
  pointers : list MemoryPointer
}.

Definition set_self (f : CuPyNumbaManager -> CuPyNumbaManager) (w : world) : world :=
  {| self := f (self w); pool := pool w; pool_calls := pool_calls w;
     stdout := stdout w; pointers := pointers w |}.

Definition set_allocations (m : gmap Z cp_MemoryPointer) : world -> world :=
  set_self (fun s => {| _logging := _logging s; _allocations := m;
                        _mp := _mp s; _disable_count := _disable_count s |}).

Definition set_mp (r : option pool_ref) : world -> world :=
  set_self (fun s => {| _logging := _logging s; _allocations := _allocations s;
                        _mp := r; _disable_count := _disable_count s |}).

Definition set_disable_count (n : nat) : world -> world :=
  set_self (fun s => {| _logging := _logging s; _allocations := _allocations s;
                        _mp := _mp s; _disable_count := n |}).

Definition set_pool (p : P) (w : world) : world :=
  {| self := self w; pool := p; pool_calls := pool_calls w;
     stdout := stdout w; pointers := pointers w |}.

Definition record_call (c : pool_call) (w : world) : world :=
  {| self := self w; pool := pool w; pool_calls := pool_calls w ++ [c];
     stdout := stdout w; pointers := pointers w |}.

Definition print (l : log_line) (w : world) : world :=
  {| self := self w; pool := pool w; pool_calls := pool_calls w;
     stdout := stdout w ++ [l]; pointers := pointers w |}.

Definition set_pointers (l : list MemoryPointer) (w : world) : world :=
  {| self := self w; pool := pool w; pool_calls := pool_calls w;
     stdout := stdout w; pointers := l |}.

(** An allocation record that loses its last reference returns its block
    to the pool. *)
Definition collect (r : cp_MemoryPointer) (w : world) : world :=
  set_pool (pool_free r (pool w)) (record_call (CallFree (ptr r)) w).

(** [CuPyNumbaManager.__init__] *)
Definition __init__ (LOGGING : bool) (p : P) : world :=
  {| self := {| _logging := LOGGING; _allocations := ∅; _mp := None;
                _disable_count := 0 |};
     pool := p; pool_calls := []; stdout := []; pointers := [] |}.

(** [_make_finalizer] *)
Definition _make_finalizer (w : world) (cp_mp : cp_MemoryPointer) (nbytes : Z) : finalizer :=
  {| fin_nbytes := nbytes; fin_ptr := ptr cp_mp; fin_logging := _logging (self w) |}.

(** The body of the closure: print, then [allocations.pop(ptr)], which
    raises [KeyError] on a missing key. *)
Definition run_finalizer (f : finalizer) (w : world) : result unit * world :=
  let w1 := if fin_logging f then print (Freeing (fin_nbytes f) (fin_ptr f)) w else w in
  match _allocations (self w1) !! fin_ptr f with
  | None => (Raise (KeyError (fin_ptr f)), w1)
  | Some r => (Ok tt, collect r (set_allocations (delete (fin_ptr f) (_allocations (self w1))) w1))
  end.

(** [self._allocations[k] = v]; a record that was stored under [k] loses
    its reference. *)
Definition setitem (k : Z) (v : cp_MemoryPointer) (w : world) : world :=
  let w1 := set_allocations (<[k := v]> (_allocations (self w))) w in
  match _allocations (self w) !! k with
  | None => w1
  | Some old => collect old w1
  end.

(** [memalloc] *)
Definition memalloc (nbytes : Z) (w : world) : result MemoryPointer * world :=
  match _mp (self w) with
  | None => (Raise (AttributeError "'NoneType' object has no attribute 'malloc'"), w)
  | Some DefaultMemoryPool =>
      let w1 := record_call (CallMalloc nbytes) w in
      match malloc nbytes (pool w1) with
      | (inr e, p') => (Raise e, set_pool p' w1)
      | (inl cp_mp, p') =>
          let w2 := set_pool p' w1 in
          let w3 := if _logging (self w2) then print (Allocated nbytes (ptr cp_mp)) w2 else w2 in
          let w4 := setitem (ptr cp_mp) cp_mp w3 in
          let mp := {| device_pointer := c_uint64 (ptr cp_mp); memsize := nbytes;
                       _finalizer := _make_finalizer w4 cp_mp nbytes; alive := true |} in
          (Ok mp, set_pointers (pointers w4 ++ [mp]) w4)
      end
  end.

(** [get_memory_info] *)
Definition get_memory_info (w : world) : result MemoryInfo * world :=
  match _mp (self w) with
  | None => (Raise (AttributeError "'NoneType' object has no attribute 'free_bytes'"), w)
  | Some DefaultMemoryPool =>
      let w1 := record_call CallFreeBytes w in
      let w2 := record_call CallTotalBytes w1 in
      (Ok {| free := free_bytes (pool w); total := total_bytes (pool w) |}, w2)
  end.

(** [initialize]: after the superclass's own setup, which touches none of
    the attributes above, [self._mp = cupy.get_default_memory_pool()]. *)
Definition initialize (w : world) : result unit * world :=
  (Ok tt, set_mp (Some DefaultMemoryPool) w).

(** [reset] *)
Definition reset (w : world) : result unit * world :=
  match _mp (self w) with
  | None => (Ok tt, w)
  | Some DefaultMemoryPool =>
      (Ok tt, set_pool (free_all_blocks (pool w)) (record_call CallFreeAllBlocks w))
  end.

(** [defer_cleanup]: entering and leaving [super().defer_cleanup()], around
    the body of the [with] statement.  The finalizers of [_make_finalizer]
    do not read the depth. *)
Definition defer_cleanup_enter (w : world) : world :=
  set_disable_count (S (_disable_count (self w))) w.

Definition defer_cleanup_exit (w : world) : world :=
  set_disable_count (pred (_disable_count (self w))) w.

Definition defer_cleanup {A} (body : world -> A * world) (w : world) : A * world :=
  let '(a, w') := body (defer_cleanup_enter w) in (a, defer_cleanup_exit w').

(** The host runtime drops its last reference to the [k]-th pointer it was
    given: the finalizer fires unless it already has.  The outcome recorded
    for the drop is the outcome of the closure; [weakref.finalize] reports
    an exception of the closure on the error output and the [del] statement
    itself goes on. *)
Definition kill (mp : MemoryPointer) : MemoryPointer :=
  {| device_pointer := device_pointer mp; memsize := memsize mp;
     _finalizer := _finalizer mp; alive := false |}.

Definition del (k : nat) (w : world) : result unit * world :=
  match pointers w !! k with
  | None => (Ok tt, w)
  | Some mp =>
      if alive mp
      then run_finalizer (_finalizer mp) (set_pointers (<[k := kill mp]> (pointers w)) w)
      else (Ok tt, w)
  end.

(** What the host runtime can do with the manager. *)
Inductive op : Type :=
| OpInitialize
| OpReset
| OpMemalloc (nbytes : Z)
| OpDrop (k : nat)
| OpGetMemoryInfo
| OpEnterDefer
| OpExitDefer.

Global Instance op_eq_dec : EqDecision op.
Proof. solve_decision. Defined.

Definition forget {A} (r : result A) : result unit :=
  match r with Ok _ => Ok tt | Raise e => Raise e end.

Definition step (o : op) (w : world) : result unit * world :=
  match o with
  | OpInitialize => initialize w
  | OpReset => reset w
  | OpMemalloc n => let '(r, w') := memalloc n w in (forget r, w')
  | OpDrop k => del k w
  | OpGetMemoryInfo => let '(r, w') := get_memory_info w in (forget r, w')
  | OpEnterDefer => (Ok tt, defer_cleanup_enter w)
  | OpExitDefer => (Ok tt, defer_cleanup_exit w)
  end.

(** A run: the outcomes of the calls, in order, and the final world.  An
    exception ends the call that raised it, not the run. *)
Fixpoint run (ops : list op) (w : world) : list (result unit) * world :=
  match ops with
  | [] => ([], w)
  | o :: ops' =>
      let '(r, w1) := step o w in
      let '(rs, w2) := run ops' w1 in
      (r :: rs, w2)
  end.

(** Bookkeeping read off the world: the pointers handed out, those whose
    finalizer has been called, the addresses of those still alive. *)
Definition allocations_made (w : world) : nat := length (pointers w).

Definition live_addresses (w : world) : list Z := live (pointers w).

Definition finalized_addresses (w : world) : list Z := dead (pointers w).

Definition finalizers_run (w : world) : nat := length (finalized_addresses w).

(** The addresses handed back to the pool, in the order of the calls. *)
Definition frees (w : world) : list Z :=
  omap (fun c => match c with CallFree p => Some p | _ => None end) (pool_calls w).

(** The pool hands out an address that no live allocation of this manager
    has: checked at every [memalloc] of a run. *)
Definition fresh_step (o : op) (w : world) : Prop :=
  match o, _mp (self w) with
  | OpMemalloc n, Some _ =>
      match malloc n (pool w) with
      | (inl cp_mp, _) => _allocations (self w) !! ptr cp_mp = None
      | (inr _, _) => True
      end
  | _, _ => True
  end.

Fixpoint fresh_run (ops : list op) (w : world) : Prop :=
  match ops with
  | [] => True
  | o :: ops' => fresh_step o w /\ fresh_run ops' (step o w).2
  end.

(** The table invariant: it holds exactly the addresses of the pointers
    that are still alive, each once, every record sits under its own
    address, and the blocks handed back to the pool are those of the
    pointers whose finalizer has been called. *)
Record tracked (w : world) : Prop := {
  tracked_nodup : NoDup (live (pointers w));
  tracked_dom : forall p, is_Some (_allocations (self w) !! p) <-> p ∈ live (pointers w);
  tracked_key : forall p r, _allocations (self w) !! p = Some r -> ptr r = p;
  tracked_frees : frees w ≡ₚ dead (pointers w)
}.

(** A finalizer fired by the host runtime finds its entry. *)
Definition finalizer_found (o : op) (r : result unit) : Prop :=
  match o with OpDrop _ => r = Ok tt | _ => True end.

(** The manager as [__init__] leaves it, for as long as [initialize] has
    not been called. *)
Record uninitialized (w : world) : Prop := {
  uninit_mp : _mp (self w) = None;
  uninit_pointers : pointers w = [];
  uninit_table : _allocations (self w) = ∅;
  uninit_calls : pool_calls w = []
}.

End Manager.

Arguments world P : clear implicits.

End CuPy.

(** A small pool on which the model can be run: a bump arena of [capacity]
    bytes starting at address [base].  A request of zero bytes does not
    move the break, so two such requests get the same address. *)
Module Arena.

Record arena : Type := { base : Z; brk : Z; capacity : Z; returned : Z }.

Definition arena_malloc (n : Z) (a : arena) : (CuPy.cp_MemoryPointer + exn) * arena :=
  if decide (0 <= n /\ brk a + n <= capacity a)
  then (inl {| CuPy.ptr := base a + brk a |},
        {| base := base a; brk := brk a + n; capacity := capacity a;
           returned := returned a |})
  else (inr (PoolError "out of memory"), a).

Definition arena_free (r : CuPy.cp_MemoryPointer) (a : arena) : arena :=
  {| base := base a; brk := brk a; capacity := capacity a;
     returned := returned a + 1 |}.

Global Instance arena_pool : CuPy.MemoryPool arena := {|
  CuPy.malloc := arena_malloc;
  CuPy.pool_free := arena_free;
  CuPy.free_all_blocks := fun a => a;
  CuPy.free_bytes := fun a => capacity a - brk a;
  CuPy.total_bytes := capacity
|}.

Definition fresh_arena : arena :=
  {| base := 4096; brk := 0; capacity := 65536; returned := 0 |}.

End Arena.

(** ** The direct plugin: [simple_emm_plugin.py] *)

Module Simple.

(** The three CUDA runtime entry points bound through ctypes.  [cudaMalloc]
    answers with its return code and the value it left in the out
    parameter; [cudaFree] with its return code; [cudaMemGetInfo] with its
    return code and the two values written. *)
Class CudaRuntime (D : Type) : Type := {
  cudaMalloc : Z -> D -> (Z * Z) * D;
  cudaFree : Z -> D -> Z * D;
  cudaMemGetInfo : D -> (Z * Z * Z) * D
}.

Inductive driver_call : Type :=
| CallCudaMalloc (size : Z)
| CallCudaFree (p : Z)
| CallCudaMemGetInfo.

Global Instance driver_call_eq_dec : EqDecision driver_call.
Proof. solve_decision. Defined.

(** The closure returned by [make_finalizer]: it captures [ptr]. *)
Record finalizer : Type := { fin_ptr : Z }.

(** Numba's [MemoryPointer] as built by [MyEMMPlugin.memalloc], without the
    context. *)

Record MemoryPointer : Type := {
  device_pointer : Z;
  memsize : Z;
  _finalizer : finalizer
}.

Record MemoryInfo : Type := { free : Z; total : Z }.

Section Plugin.
Context {D : Type} `{CudaRuntime D}.

(** [MyEMMPlugin] has no attribute of its own; the world is the driver and
    the calls made to it. *)
Record world : Type := {
  driver : D;
  driver_calls : list driver_call
}.

Definition call (c : driver_call) (d : D) (w : world) : world :=
  {| driver := d; driver_calls := driver_calls w ++ [c] |}.

Definition new_world (d : D) : world := {| driver := d; driver_calls := [] |}.

(** The message of the f-string in [my_alloc]. *)
Definition unexpected_return_code (ret : Z) : string :=
  "Unexpected return code " +:+ pretty ret +:+ " from cudaMalloc".

(** [my_alloc] *)
Definition my_alloc (size : Z) (w : world) : result Z * world :=
  let '((ret, p), d) := cudaMalloc (c_size_t size) (driver w) in
  let w1 := call (CallCudaMalloc (c_size_t size)) d w in
  if decide (ret = 0) then (Ok p, w1)
  else (Raise (RuntimeError (unexpected_return_code ret)), w1).

(** [my_free]: the return code of [cudaFree] is not looked at. *)
Definition my_free (p : Z) (w : world) : result unit * world :=
  let '(_, d) := cudaFree (c_size_t p) (driver w) in
  (Ok tt, call (CallCudaFree (c_size_t p)) d w).

(** [my_memory_info] *)
Definition my_memory_info (w : world) : result (Z * Z) * world :=
  let '((_, f, t), d) := cudaMemGetInfo (driver w) in
  (Ok (f, t), call CallCudaMemGetInfo d w).

Definition make_finalizer (p : Z) : finalizer := {| fin_ptr := p |}.

Definition run_finalizer (f : finalizer) (w : world) : result unit * world :=
  my_free (fin_ptr f) w.

(** [MyEMMPlugin.memalloc] *)
Definition memalloc (size : Z) (w : world) : result MemoryPointer * world :=
  match my_alloc size w with
  | (Raise e, w1) => (Raise e, w1)
  | (Ok p, w1) =>
      (Ok {| device_pointer := p; memsize := size; _finalizer := make_finalizer p |}, w1)
  end.

(** [MyEMMPlugin.initialize]: [pass] *)
Definition initialize (w : world) : result unit * world := (Ok tt, w).

(** [MyEMMPlugin.get_memory_info] *)
Definition get_memory_info (w : world) : result MemoryInfo * world :=
  match my_memory_info w with
  | (Raise e, w1) => (Raise e, w1)
  | (Ok (f, t), w1) => (Ok {| free := f; total := t |}, w1)
  end.

Definition interface_version : Z := 1.

End Plugin.

Arguments world D : clear implicits.

(** A driver on which the model can be run: it serves requests from
    [dev_free] bytes, answers 3 (initialization error) while it is not
    ready, 2 (out of memory) when a request does not fit, and 1 (invalid
    value) to a [cudaFree] of an address it does not hold. *)
Record device : Type := {
  dev_ready : bool; dev_next : Z; dev_free : Z; dev_total : Z; dev_held : list Z
}.

Definition device_malloc (size : Z) (d : device) : (Z * Z) * device :=
  if negb (dev_ready d) then ((3, 0), d)
  else if decide (size <= dev_free d)
  then ((0, dev_next d),
        {| dev_ready := dev_ready d; dev_next := dev_next d + Z.max size 1; dev_free := dev_free d - size;
           dev_total := dev_total d; dev_held := dev_next d :: dev_held d |})
  else ((2, 0), d).

Definition device_free (p : Z) (d : device) : Z * device :=
  if decide (p ∈ dev_held d)
  then (0, {| dev_ready := dev_ready d; dev_next := dev_next d; dev_free := dev_free d;
              dev_total := dev_total d;
              dev_held := filter (fun q => q ≠ p) (dev_held d) |})
  else (1, d).

Global Instance device_runtime : CudaRuntime device := {|
  cudaMalloc := device_malloc;
  cudaFree := device_free;
  cudaMemGetInfo := fun d => ((0, dev_free d, dev_total d), d)
|}.

Definition fresh_device : device :=
  {| dev_ready := true; dev_next := 512; dev_free := 4096; dev_total := 4096;
     dev_held := [] |}.

Definition unready_device : device :=
  {| dev_ready := false; dev_next := 512; dev_free := 4096; dev_total := 4096;
     dev_held := [] |}.

End Simple.

(** ** Floating-point arithmetic

    The kernels compute on [float64].  Their control structure does not
    depend on how the operations round, so the models take the arithmetic
    as an interface; the hardware's binary64 operations are one instance. *)

Class Float64 (F : Type) : Type := {
  f_add : F -> F -> F;
  f_sub : F -> F -> F;
  f_mul : F -> F -> F;
  f_div : F -> F -> F;
  f_of_int : Z -> F;
  f_ge : F -> F -> bool
}.

Definition float_of_Z (z : Z) : float :=
  match z with
  | Z0 => PrimFloat.of_uint63 0%uint63
  | Zpos _ => PrimFloat.of_uint63 (Uint63.of_Z z)
  | Zneg _ => PrimFloat.opp (PrimFloat.of_uint63 (Uint63.of_Z (- z)))
  end.

Global Instance binary64 : Float64 float := {|
  f_add := PrimFloat.add;
  f_sub := PrimFloat.sub;
  f_mul := PrimFloat.mul;
  f_div := PrimFloat.div;
  f_of_int := float_of_Z;
  f_ge := fun x y => PrimFloat.leb y x
|}.

(** ** The Mandelbrot kernel: [mandel_cuda.py] *)

Module Mandel.

Section Kernel.
Context {F : Type} `{Float64 F}.

Record complex : Type := { real : F; imag : F }.

Definition complex_add (z w : complex) : complex :=
  {| real := f_add (real z) (real w); imag := f_add (imag z) (imag w) |}.

Definition complex_mul (z w : complex) : complex :=
  {| real := f_sub (f_mul (real z) (real w)) (f_mul (imag z) (imag w));
     imag := f_add (f_mul (real z) (imag w)) (f_mul (imag z) (real w)) |}.

(** [z = z * z + c] *)
Definition update (c z : complex) : complex := complex_add (complex_mul z z) c.

(** [(z.real * z.real + z.imag * z.imag) >= 4] *)
Definition escaped (z : complex) : bool :=
  f_ge (f_add (f_mul (real z) (real z)) (f_mul (imag z) (imag z))) (f_of_int 4).

(** The [for i in range(max_iters)] loop with [n] indices left, [i] the
    next one. *)
Fixpoint mandel_loop (c z : complex) (i : Z) (n : nat) : Z :=
  match n with
  | O => 255
  | S n' =>
      let z' := update c z in
      if escaped z' then i else mandel_loop c z' (i + 1) n'
  end.

(** [mandel] *)
Definition mandel (x y : F) (max_iters : Z) : Z :=
  let c := {| real := x; imag := y |} in
  let z := {| real := f_of_int 0; imag := f_of_int 0 |} in
  mandel_loop c z 0 (Z.to_nat max_iters).

(** A two-dimensional [uint8] array in C order: [image[y, x]] is the
    element at [y * shape1 + x] of [data]. *)
Record ndarray : Type := {
  shape0 : Z;
  shape1 : Z;
  data : list Z
}.

Definition uint8 (v : Z) : Z := v mod 256.

Definition getitem (image : ndarray) (y x : Z) : option Z :=
  data image !! Z.to_nat (y * shape1 image + x).

Definition setitem (image : ndarray) (y x v : Z) : ndarray :=
  {| shape0 := shape0 image; shape1 := shape1 image;
     data := <[Z.to_nat (y * shape1 image + x) := uint8 v]> (data image) |}.

(** The body of [create_fractal] for the thread whose [cuda.grid(2)] is
    [(x, y)]. *)
Definition create_fractal_thread (min_x max_x min_y max_y : F) (iters : Z)
    (xy : Z * Z) (image : ndarray) : ndarray :=
  let '(x, y) := xy in
  let height := shape0 image in
  let width := shape1 image in
  let pixel_size_x := f_div (f_sub max_x min_x) (f_of_int width) in
  let pixel_size_y := f_div (f_sub max_y min_y) (f_of_int height) in
  if decide (x < width /\ y < height) then
    let re := f_add min_x (f_mul (f_of_int x) pixel_size_x) in
    let im := f_add min_y (f_mul (f_of_int y) pixel_size_y) in
    let color := mandel re im iters in
    setitem image y x color
  else image.

(** A launch configuration [kernel[(gx, gy), (bx, by)]]. *)
Record launch : Type := { gx : nat; gy : nat; bx : nat; by_ : nat }.

(** [cuda.grid(2)] of every thread of the launch:
    [threadIdx + blockIdx * blockDim] in each dimension. *)
Definition grid (cfg : launch) : list (Z * Z) :=
  biy ← seq 0 (gy cfg); bix ← seq 0 (gx cfg);
  tiy ← seq 0 (by_ cfg); tix ← seq 0 (bx cfg);
  [(Z.of_nat (tix + bix * bx cfg), Z.of_nat (tiy + biy * by_ cfg))].

(** The threads of a launch, taken in the order of [threads]. *)
Definition run_threads (min_x max_x min_y max_y : F) (iters : Z)
    (threads : list (Z * Z)) (image : ndarray) : ndarray :=
  foldl (fun img xy => create_fractal_thread min_x max_x min_y max_y iters xy img)
        image threads.

(** [create_fractal[(gx, gy), (bx, by)](min_x, max_x, min_y, max_y, image, iters)] *)
Definition create_fractal (cfg : launch) (min_x max_x min_y max_y : F)
    (image : ndarray) (iters : Z) : ndarray :=
  run_threads min_x max_x min_y max_y iters (grid cfg) image.

(** The iterate after [k] updates, and the least index at which it has
    left the disc, as the docstring of [mandel] reads. *)
Fixpoint iterate (c : complex) (k : nat) : complex :=
  match k with
  | O => {| real := f_of_int 0; imag := f_of_int 0 |}
  | S k' => update c (iterate c k')
  end.

Definition escapes_at (x y : F) (i : Z) : Prop :=
  escaped (iterate {| real := x; imag := y |} (S (Z.to_nat i))) = true.

(** Grid coordinates are not negative. *)
Definition nonneg (xy : Z * Z) : Prop := 0 <= xy.1 /\ 0 <= xy.2.

End Kernel.

Arguments complex F : clear implicits.

End Mandel.

(** ** The quaternion extension: [quaternion_solution.py] *)

Module Quaternion.

(** The code that a lowering function emits through the IR builder: the
    instructions that [builder.fadd] and the struct proxies of
    [cgutils.create_struct_proxy] append, over numbered SSA values. *)
Inductive value : Type :=
| Argument (i : nat)
| Temp (n : nat).

Inductive instr : Type :=
| alloca (dst : nat)
| store (v p : value)
| load (dst : nat) (p : value)
| gep (dst : nat) (p : value) (member : nat)
| fadd (dst : nat) (x y : value).

Record builder : Type := { next_temp : nat; code : list instr }.

Definition emit (mk : nat -> instr) (bld : builder) : value * builder :=
  (Temp (next_temp bld),
   {| next_temp := S (next_temp bld); code := code bld ++ [mk (next_temp bld)] |}).

Definition emit_ (i : instr) (bld : builder) : builder :=
  {| next_temp := next_temp bld; code := code bld ++ [i] |}.

Definition builder_fadd (x y : value) : builder -> value * builder :=
  emit (fun n => fadd n x y).

(** The position of a member in [QuaternionModel.members]. *)
Inductive member : Type := member_a | member_b | member_c | member_d.

Definition position (m : member) : nat :=
  match m with member_a => 0 | member_b => 1 | member_c => 2 | member_d => 3 end%nat.

(** A struct proxy is a zero-filled stack slot; [value=] stores into it,
    attribute reads and writes go through a pointer to the member, and
    [_getvalue()] loads the whole struct. *)
Definition create_struct_proxy (v : option value) (bld : builder) : value * builder :=
  let '(p, bld1) := emit alloca bld in
  match v with
  | None => (p, bld1)
  | Some x => (p, emit_ (store x p) bld1)
  end.

Definition proxy_getattr (p : value) (m : member) (bld : builder) : value * builder :=
  let '(q, bld1) := emit (fun n => gep n p (position m)) bld in
  emit (fun n => load n q) bld1.

Definition proxy_setattr (p : value) (m : member) (x : value) (bld : builder) : builder :=
  let '(q, bld1) := emit (fun n => gep n p (position m)) bld in
  emit_ (store x q) bld1.

Definition proxy_getvalue (p : value) : builder -> value * builder :=
  emit (fun n => load n p).

(** [cuda_quaternion_add] *)
Definition cuda_quaternion_add (args : value * value) (bld : builder) : value * builder :=
  let '(q1, bld) := create_struct_proxy (Some (fst args)) bld in
  let '(q2, bld) := create_struct_proxy (Some (snd args)) bld in
  let '(q3, bld) := create_struct_proxy None bld in
  let '(q1a, bld) := proxy_getattr q1 member_a bld in
  let '(q2a, bld) := proxy_getattr q2 member_a bld in
  let '(sa, bld) := builder_fadd q1a q2a bld in
  let bld := proxy_setattr q3 member_a sa bld in
  let '(q1b, bld) := proxy_getattr q1 member_b bld in
  let '(q2b, bld) := proxy_getattr q2 member_b bld in
  let '(sb, bld) := builder_fadd q1b q2b bld in
  let bld := proxy_setattr q3 member_b sb bld in
  let '(q1c, bld) := proxy_getattr q1 member_c bld in
  let '(q2c, bld) := proxy_getattr q2 member_c bld in
  let '(sc, bld) := builder_fadd q1c q2c bld in
  let bld := proxy_setattr q3 member_c sc bld in
  let '(q1d, bld) := proxy_getattr q1 member_d bld in
  let '(q2d, bld) := proxy_getattr q2 member_d bld in
  let '(sd, bld) := builder_fadd q1d q2d bld in
  let bld := proxy_setattr q3 member_d sd bld in
  proxy_getvalue q3 bld.

Section Semantics.
Context {F : Type} `{Float64 F}.

(** [class Quaternion] *)
Record Quaternion : Type := { a : F; b : F; c : F; d : F }.

(** [Quaternion.__add__] *)
Definition __add__ (self other : Quaternion) : Quaternion :=
  {| a := f_add (a self) (a other);
     b := f_add (b self) (b other);
     c := f_add (c self) (c other);
     d := f_add (d self) (d other) |}.

(** What the emitted instructions compute. *)
Inductive rvalue : Type :=
| VDouble (x : F)
| VStruct (members : list F)
| VPointer (slot : nat) (member : option nat).

Record machine : Type := {
  arguments : list rvalue;
  temps : gmap nat rvalue;
  stack : gmap nat (list F)
}.

Definition eval (m : machine) (v : value) : option rvalue :=
  match v with
  | Argument i => arguments m !! i
  | Temp n => temps m !! n
  end.

Definition set_temp (n : nat) (r : rvalue) (m : machine) : machine :=
  {| arguments := arguments m; temps := <[n := r]> (temps m); stack := stack m |}.

Definition set_slot (s : nat) (fs : list F) (m : machine) : machine :=
  {| arguments := arguments m; temps := temps m; stack := <[s := fs]> (stack m) |}.

Definition zero_struct : list F := replicate 4 (f_of_int 0).

Definition exec_instr (i : instr) (m : machine) : option machine :=
  match i with
  | alloca dst =>
      Some (set_temp dst (VPointer dst None) (set_slot dst zero_struct m))
  | store v p =>
      match eval m v, eval m p with
      | Some (VStruct fs), Some (VPointer s None) =>
          if decide (length fs = 4%nat) then Some (set_slot s fs m) else None
      | Some (VDouble x), Some (VPointer s (Some k)) =>
          fs ← stack m !! s;
          if decide (k < length fs)%nat then Some (set_slot s (<[k := x]> fs) m) else None
      | _, _ => None
      end
  | load dst p =>
      match eval m p with
      | Some (VPointer s None) => fs ← stack m !! s; Some (set_temp dst (VStruct fs) m)
      | Some (VPointer s (Some k)) =>
          fs ← stack m !! s; x ← fs !! k; Some (set_temp dst (VDouble x) m)
      | _ => None
      end
  | gep dst p k =>
      match eval m p with
      | Some (VPointer s None) => Some (set_temp dst (VPointer s (Some k)) m)
      | _ => None
      end
  | fadd dst x y =>
      match eval m x, eval m y with
      | Some (VDouble u), Some (VDouble v) => Some (set_temp dst (VDouble (f_add u v)) m)
      | _, _ => None
      end
  end.

Fixpoint exec (prog : list instr) (m : machine) : option machine :=
  match prog with
  | [] => Some m
  | i :: prog' => m' ← exec_instr i m; exec prog' m'
  end.

Definition struct_of (q : Quaternion) : rvalue := VStruct [a q; b q; c q; d q].

(** The componentwise sums [(q1.a + q2.a, q1.b + q2.b, q1.c + q2.c,
    q1.d + q2.d)], as the property to be met words them. *)
Definition spec_componentwise_sums (q1 q2 : Quaternion) : list F :=
  [f_add (a q1) (a q2); f_add (b q1) (b q2); f_add (c q1) (c q2); f_add (d q1) (d q2)].

(** The function that [cuda_quaternion_add] compiles [operator.add] to:
    the emitted code run on two quaternion arguments. *)
Definition lowered_add (q1 q2 : Quaternion) : option rvalue :=
  let '(ret, bld) :=
    cuda_quaternion_add (Argument 0, Argument 1) {| next_temp := 0; code := [] |} in
  m ← exec (code bld)
         {| arguments := [struct_of q1; struct_of q2]; temps := ∅; stack := ∅ |};
  eval m ret.

End Semantics.

Arguments Quaternion F : clear implicits.

End Quaternion.

(** ** What a run of the pool-backed manager leaves behind *)

Module CuPyTrace.
Import CuPy.

(** The [(nbytes, address)] pairs of the ["Allocated ..."] lines and of the
    ["Freeing ..."] lines of the output, in the order printed. *)
Definition allocated_lines (out : list log_line) : list (Z * Z) :=
  omap (fun l => match l with Allocated n p => Some (n, p) | _ => None end) out.

Definition freeing_lines (out : list log_line) : list (Z * Z) :=
  omap (fun l => match l with Freeing n p => Some (n, p) | _ => None end) out.

(** The size and the address under which a pointer was handed out. *)
Definition handed_out (mp : MemoryPointer) : Z * Z :=
  (memsize mp, fin_ptr (_finalizer mp)).

(** The sizes the pool's [malloc] was called with, in order. *)
Definition mallocs (calls : list pool_call) : list Z :=
  omap (fun c => match c with CallMalloc n => Some n | _ => None end) calls.

(** The sizes of the [memalloc] calls of a run that are made on a manager
    with a pool: all of them if it has one already, else those after the
    first [initialize]. *)
Fixpoint requested (has_pool : bool) (ops : list op) : list Z :=
  match ops with
  | [] => []
  | OpInitialize :: ops' => requested true ops'
  | OpMemalloc n :: ops' =>
      if has_pool then n :: requested has_pool ops' else requested has_pool ops'
  | _ :: ops' => requested has_pool ops'
  end.

Section Log.
Context {P : Type} `{MemoryPool P}.

(** What the output says about the pointers handed out, for a manager
    created with [LOGGING]. *)
Record logged (LOGGING : bool) (w : world P) : Prop := {
  logged_flag : _logging (self w) = LOGGING;
  logged_closures :
    Forall (fun mp => fin_logging (_finalizer mp) = LOGGING
                      /\ fin_nbytes (_finalizer mp) = memsize mp) (pointers w);
  logged_allocated :
    allocated_lines (stdout w) = if LOGGING then handed_out <$> pointers w else [];
  logged_freeing :
    freeing_lines (stdout w)
    ≡ₚ if LOGGING
       then handed_out <$> filter (fun mp => alive mp = false) (pointers w)
       else []
}.

End Log.

End CuPyTrace.

(** ** The rest of [mandel_cuda.py]: the picture and the launch *)

Module MandelScript.
Import Mandel.

Section Picture.
Context {F : Type} `{Float64 F}.

(** The byte that the thread at [(x, y)] stores in [image[y, x]]: [real],
    [imag] and [color] as [create_fractal] computes them. *)
Definition pixel (min_x max_x min_y max_y : F) (iters : Z) (image : ndarray)
    (x y : Z) : Z :=
  let pixel_size_x := f_div (f_sub max_x min_x) (f_of_int (shape1 image)) in
  let pixel_size_y := f_div (f_sub max_y min_y) (f_of_int (shape0 image)) in
  uint8 (mandel (f_add min_x (f_mul (f_of_int x) pixel_size_x))
                (f_add min_y (f_mul (f_of_int y) pixel_size_y)) iters).

(** An array whose data has the size its shape says. *)
Definition well_shaped (image : ndarray) : Prop :=
  0 <= shape0 image /\ 0 <= shape1 image
  /\ length (data image) = Z.to_nat (shape0 image * shape1 image).

End Picture.

(** [nblocksx = (width // nthreads) + 1], and the same for [y]. *)
Definition nblocks (extent nthreads : Z) : Z := extent / nthreads + 1.

(** The launch configuration [(nblocksx, nblocksy), (nthreads, nthreads)]. *)
Definition script_launch (width height nthreads : Z) : launch :=
  {| gx := Z.to_nat (nblocks width nthreads);
     gy := Z.to_nat (nblocks height nthreads);
     bx := Z.to_nat nthreads;
     by_ := Z.to_nat nthreads |}.

(** [np.zeros((height, width), dtype=np.uint8)] *)
Definition zeros (height width : Z) : ndarray :=
  {| shape0 := height; shape1 := width;
     data := replicate (Z.to_nat (height * width)) 0 |}.

(** The script, for a picture of [width] by [height] and blocks of
    [nthreads] by [nthreads] threads (15000, 10000 and 32 in the source). *)
Definition script (width height nthreads : Z) : ndarray :=
  create_fractal (F := float) (script_launch width height nthreads)
    (-2)%float 1%float (-1)%float 1%float (zeros height width) 20.

End MandelScript.

(** ** The CUDA Array Interface example: [cai_implementation.py] *)

Module CAI.

Section Kernel.
Context {V : Type}.

(** The body of the kernel [initialize] for the thread whose
    [cuda.grid(1)] is [i]; [c] is the constant 3.14 in the element type of
    [x], and [len(x)] the number of elements of [x]. *)
Definition initialize_thread (c : V) (i : Z) (x : list V) : list V :=
  if decide (i < Z.of_nat (length x)) then <[Z.to_nat i := c]> x else x.

(** [cuda.grid(1)] of every thread of the launch [kernel[g, b]]. *)
Definition grid1 (g b : nat) : list Z :=
  bi ← seq 0 g; ti ← seq 0 b; [Z.of_nat (ti + bi * b)].

(** [initialize[g, b](x)] *)
Definition initialize (g b : nat) (c : V) (x : list V) : list V :=
  foldl (fun x i => initialize_thread c i x) x (grid1 g b).

End Kernel.

End CAI.

Module CAIMemory.
Import CAI.

Section Memory.
Context {V : Type}.

(** The array as the device sees it: the [len] elements that the interface
    declares, at the start of the device memory that begins at its pointer
    and goes on behind the allocation.  A store [x[i] = c] in a kernel is
    not bounds-checked: it writes the cell at offset [i] whether or not
    [i < len(x)]. *)
Record device_array : Type := { len : Z; memory : list V }.

Definition setitem (x : device_array) (i : Z) (c : V) : device_array :=
  {| len := len x; memory := <[Z.to_nat i := c]> (memory x) |}.

(** The body of the kernel [initialize], on the device. *)
Definition initialize_thread (c : V) (i : Z) (x : device_array) : device_array :=
  if decide (i < len x) then setitem x i c else x.

(** [initialize[g, b](x)], on the device. *)
Definition initialize (g b : nat) (c : V) (x : device_array) : device_array :=
  foldl (fun x i => initialize_thread c i x) x (grid1 g b).

(** The array lies within the memory. *)
Definition allocated (x : device_array) : Prop :=
  0 <= len x <= Z.of_nat (length (memory x)).

End Memory.

Arguments device_array V : clear implicits.

End CAIMemory.

(** ** The other lowerings of [quaternion_solution.py] and those of
    [interval_example.py] *)

(** What the Python classes need beyond [Float64]: unary minus, the
    constant [-0.0], the test [x == 0.0] behind [ZeroDivisionError], and the
    math library, both as Python's [math] module has it (its functions can
    raise) and as the compilation target has it (total). *)
Inductive py_error : Type := ZeroDivisionError | ValueError.

Class MathLib (F : Type) : Type := {
  f_neg : F -> F;
  f_negzero : F;
  f_is_zero : F -> bool;
  math_atan : F -> F + py_error;
  math_asin : F -> F + py_error;
  target_atan : F -> F;
  target_asin : F -> F
}.

(** Python's [x / y] on floats. *)
Definition py_div {F : Type} `{Float64 F} `{MathLib F} (x y : F) : F + py_error :=
  if f_is_zero y then inr ZeroDivisionError else inl (f_div x y).

Module Builder.

(** The instructions appended by the builder calls of the lowering
    functions: those of the struct proxies, [extract_value], the four
    arithmetic instructions and the call of a math function obtained from
    [context.get_function].  Operands are arguments, earlier results, or
    constants made by [context.get_constant(types.float64, v)]. *)
Inductive pyconst : Type :=
| PyInt (z : Z)
| PyNegZero.

Inductive value : Type :=
| Argument (i : nat)
| Temp (n : nat)
| Constant (c : pyconst).

Inductive mathfn : Type := fn_atan | fn_asin.

Inductive instr : Type :=
| alloca (dst : nat) (members : nat)
| store (v p : value)
| load (dst : nat) (p : value)
| gep (dst : nat) (p : value) (member : nat)
| extract_value (dst : nat) (agg : value) (idx : nat)
| fadd (dst : nat) (x y : value)
| fsub (dst : nat) (x y : value)
| fmul (dst : nat) (x y : value)
| fdiv (dst : nat) (x y : value)
| call (dst : nat) (f : mathfn) (x : value).

Record builder : Type := { next_temp : nat; code : list instr }.

Definition empty : builder := {| next_temp := 0; code := [] |}.

Definition emit (mk : nat -> instr) (bld : builder) : value * builder :=
  (Temp (next_temp bld),
   {| next_temp := S (next_temp bld); code := code bld ++ [mk (next_temp bld)] |}).

Definition emit_ (i : instr) (bld : builder) : builder :=
  {| next_temp := next_temp bld; code := code bld ++ [i] |}.

Definition builder_extract_value (agg : value) (idx : nat) := emit (fun n => extract_value n agg idx).
Definition builder_fadd (x y : value) := emit (fun n => fadd n x y).
Definition builder_fsub (x y : value) := emit (fun n => fsub n x y).
Definition builder_fmul (x y : value) := emit (fun n => fmul n x y).
Definition builder_fdiv (x y : value) := emit (fun n => fdiv n x y).
Definition call_impl (f : mathfn) (x : value) := emit (fun n => call n f x).

(** [context.get_constant(types.float64, v)] *)
Definition get_constant (c : pyconst) : value := Constant c.

(** A struct proxy for a model of [members] fields: a zero-filled stack
    slot, written and read through pointers to its members. *)
Definition create_struct_proxy (members : nat) (bld : builder) : value * builder :=
  emit (fun n => alloca n members) bld.

Definition proxy_setattr (p : value) (position : nat) (x : value) (bld : builder) : builder :=
  let '(q, bld1) := emit (fun n => gep n p position) bld in
  emit_ (store x q) bld1.

Definition proxy_getvalue (p : value) : builder -> value * builder :=
  emit (fun n => load n p).

Section Semantics.
Context {F : Type} `{Float64 F} `{MathLib F}.

Inductive rvalue : Type :=
| VDouble (x : F)
| VStruct (members : list F)
| VPointer (slot : nat) (member : option nat).

Record machine : Type := {
  arguments : list rvalue;
  temps : gmap nat rvalue;
  stack : gmap nat (list F)
}.

Definition eval (m : machine) (v : value) : option rvalue :=
  match v with
  | Argument i => arguments m !! i
  | Temp n => temps m !! n
  | Constant (PyInt z) => Some (VDouble (f_of_int z))
  | Constant PyNegZero => Some (VDouble f_negzero)
  end.

Definition set_temp (n : nat) (r : rvalue) (m : machine) : machine :=
  {| arguments := arguments m; temps := <[n := r]> (temps m); stack := stack m |}.

Definition set_slot (s : nat) (fs : list F) (m : machine) : machine :=
  {| arguments := arguments m; temps := temps m; stack := <[s := fs]> (stack m) |}.

Definition binary (op : F -> F -> F) (dst : nat) (x y : value) (m : machine) : option machine :=
  match eval m x, eval m y with
  | Some (VDouble u), Some (VDouble v) => Some (set_temp dst (VDouble (op u v)) m)
  | _, _ => None
  end.

Definition target_fn (f : mathfn) : F -> F :=
  match f with fn_atan => target_atan | fn_asin => target_asin end.

Definition exec_instr (i : instr) (m : machine) : option machine :=
  match i with
  | alloca dst members =>
      Some (set_temp dst (VPointer dst None)
              (set_slot dst (replicate members (f_of_int 0)) m))
  | store v p =>
      match eval m v, eval m p with
      | Some (VStruct fs), Some (VPointer s None) =>
          old ← stack m !! s;
          if decide (length fs = length old) then Some (set_slot s fs m) else None
      | Some (VDouble x), Some (VPointer s (Some k)) =>
          fs ← stack m !! s;
          if decide (k < length fs)%nat then Some (set_slot s (<[k := x]> fs) m) else None
      | _, _ => None
      end
  | load dst p =>
      match eval m p with
      | Some (VPointer s None) => fs ← stack m !! s; Some (set_temp dst (VStruct fs) m)
      | Some (VPointer s (Some k)) =>
          fs ← stack m !! s; x ← fs !! k; Some (set_temp dst (VDouble x) m)
      | _ => None
      end
  | gep dst p k =>
      match eval m p with
      | Some (VPointer s None) => Some (set_temp dst (VPointer s (Some k)) m)
      | _ => None
      end
  | extract_value dst agg k =>
      match eval m agg with
      | Some (VStruct fs) => x ← fs !! k; Some (set_temp dst (VDouble x) m)
      | _ => None
      end
  | fadd dst x y => binary f_add dst x y m
  | fsub dst x y => binary f_sub dst x y m
  | fmul dst x y => binary f_mul dst x y m
  | fdiv dst x y => binary f_div dst x y m
  | call dst f x =>
      match eval m x with
      | Some (VDouble u) => Some (set_temp dst (VDouble (target_fn f u)) m)
      | _ => None
      end
  end.

Fixpoint exec (prog : list instr) (m : machine) : option machine :=
  match prog with
  | [] => Some m
  | i :: prog' => m' ← exec_instr i m; exec prog' m'
  end.

(** The value computed by a lowering function: the code it emits into an
    empty builder, run on the arguments. *)
Definition run_lowering (lower : builder -> value * builder) (args : list rvalue)
    : option rvalue :=
  let '(ret, bld) := lower empty in
  m ← exec (code bld) {| arguments := args; temps := ∅; stack := ∅ |};
  eval m ret.

End Semantics.

End Builder.

Module QuaternionAttrs.
Import Quaternion Builder.

(** [impl_quaternion]: the lowering of the constructor. *)
Definition impl_quaternion (args : value * value * value * value)
    (bld : builder) : value * builder :=
  let '(a, b, c, d) := args in
  let '(quaternion, bld) := create_struct_proxy 4 bld in
  let bld := proxy_setattr quaternion 0 a bld in
  let bld := proxy_setattr quaternion 1 b bld in
  let bld := proxy_setattr quaternion 2 c bld in
  let bld := proxy_setattr quaternion 3 d bld in
  proxy_getvalue quaternion bld.

(** [cuda_quaternion_phi] *)
Definition cuda_quaternion_phi (arg : value) (bld : builder) : value * builder :=
  let '(a, bld) := builder_extract_value arg 0 bld in
  let '(b, bld) := builder_extract_value arg 1 bld in
  let '(c, bld) := builder_extract_value arg 2 bld in
  let '(d, bld) := builder_extract_value arg 3 bld in
  let '(a2, bld) := builder_fmul a a bld in
  let '(b2, bld) := builder_fmul b b bld in
  let '(c2, bld) := builder_fmul c c bld in
  let '(d2, bld) := builder_fmul d d bld in
  let '(ab, bld) := builder_fmul a b bld in
  let '(cd, bld) := builder_fmul c d bld in
  let '(numerator, bld) := builder_fadd ab cd bld in
  let '(t1, bld) := builder_fsub a2 b2 bld in
  let '(t2, bld) := builder_fsub t1 c2 bld in
  let '(denominator, bld) := builder_fadd t2 d2 bld in
  let '(quot, bld) := builder_fdiv numerator denominator bld in
  let '(atan_arg, bld) := builder_fmul (get_constant (PyInt 2)) quot bld in
  call_impl fn_atan atan_arg bld.

(** [cuda_quaternion_theta] *)
Definition cuda_quaternion_theta (arg : value) (bld : builder) : value * builder :=
  let '(a, bld) := builder_extract_value arg 0 bld in
  let '(b, bld) := builder_extract_value arg 1 bld in
  let '(c, bld) := builder_extract_value arg 2 bld in
  let '(d, bld) := builder_extract_value arg 3 bld in
  let '(bd, bld) := builder_fmul b d bld in
  let '(ac, bld) := builder_fmul a c bld in
  let '(x, bld) := builder_fsub bd ac bld in
  let '(asin_arg, bld) := builder_fmul (get_constant (PyInt 2)) x bld in
  let '(asin_res, bld) := call_impl fn_asin asin_arg bld in
  builder_fsub (get_constant PyNegZero) asin_res bld.

(** [cuda_quaternion_psi] *)
Definition cuda_quaternion_psi (arg : value) (bld : builder) : value * builder :=
  let '(a, bld) := builder_extract_value arg 0 bld in
  let '(b, bld) := builder_extract_value arg 1 bld in
  let '(c, bld) := builder_extract_value arg 2 bld in
  let '(d, bld) := builder_extract_value arg 3 bld in
  let '(a2, bld) := builder_fmul a a bld in
  let '(b2, bld) := builder_fmul b b bld in
  let '(c2, bld) := builder_fmul c c bld in
  let '(d2, bld) := builder_fmul d d bld in
  let '(ad, bld) := builder_fmul a d bld in
  let '(bc, bld) := builder_fmul b c bld in
  let '(numerator, bld) := builder_fadd ad bc bld in
  let '(t1, bld) := builder_fadd a2 b2 bld in
  let '(t2, bld) := builder_fsub t1 c2 bld in
  let '(denominator, bld) := builder_fsub t2 d2 bld in
  let '(quot, bld) := builder_fdiv numerator denominator bld in
  let '(atan_arg, bld) := builder_fmul (get_constant (PyInt 2)) quot bld in
  call_impl fn_atan atan_arg bld.

Section Python.
Context {F : Type} `{Float64 F} `{MathLib F}.

Definition two : F := f_of_int 2.

(** The numerators and denominators of [phi] and [psi]. *)
Definition phi_numerator (q : Quaternion F) : F :=
  f_add (f_mul (a q) (b q)) (f_mul (c q) (d q)).

Definition phi_denominator (q : Quaternion F) : F :=
  f_add (f_sub (f_sub (f_mul (a q) (a q)) (f_mul (b q) (b q))) (f_mul (c q) (c q)))
        (f_mul (d q) (d q)).

Definition psi_numerator (q : Quaternion F) : F :=
  f_add (f_mul (a q) (d q)) (f_mul (b q) (c q)).

Definition psi_denominator (q : Quaternion F) : F :=
  f_sub (f_sub (f_add (f_mul (a q) (a q)) (f_mul (b q) (b q))) (f_mul (c q) (c q)))
        (f_mul (d q) (d q)).

(** [Quaternion.phi]:
    [math.atan(2 * (a * b + c * d) / (a * a - b * b - c * c + d * d))] *)
Definition phi (q : Quaternion F) : F + py_error :=
  match py_div (f_mul two (phi_numerator q)) (phi_denominator q) with
  | inl v => math_atan v
  | inr e => inr e
  end.

(** [Quaternion.theta]: [-math.asin(2 * (b * d - a * c))] *)
Definition theta (q : Quaternion F) : F + py_error :=
  match math_asin (f_mul two (f_sub (f_mul (b q) (d q)) (f_mul (a q) (c q)))) with
  | inl v => inl (f_neg v)
  | inr e => inr e
  end.

(** [Quaternion.psi]:
    [math.atan(2 * (a * d + b * c) / (a * a + b * b - c * c - d * d))] *)
Definition psi (q : Quaternion F) : F + py_error :=
  match py_div (f_mul two (psi_numerator q)) (psi_denominator q) with
  | inl v => math_atan v
  | inr e => inr e
  end.

Definition struct_of (q : Quaternion F) : rvalue := VStruct [a q; b q; c q; d q].

End Python.

End QuaternionAttrs.

Module Interval.
Import Builder.

(** [impl_interval]: the lowering of the constructor. *)
Definition impl_interval (args : value * value) (bld : builder) : value * builder :=
  let '(lo, hi) := args in
  let '(interval, bld) := create_struct_proxy 2 bld in
  let bld := proxy_setattr interval 0 lo bld in
  let bld := proxy_setattr interval 1 hi bld in
  proxy_getvalue interval bld.

(** [cuda_Interval_width] *)
Definition cuda_Interval_width (arg : value) (bld : builder) : value * builder :=
  let '(lo, bld) := builder_extract_value arg 0 bld in
  let '(hi, bld) := builder_extract_value arg 1 bld in
  builder_fsub hi lo bld.

(** [Interval(lo, hi).width] as the two lowerings compile it: the struct
    built by the constructor is the argument of the attribute. *)
Definition constructed_width (args : value * value) (bld : builder) : value * builder :=
  let '(interval, bld) := impl_interval args bld in
  cuda_Interval_width interval bld.

Section Python.
Context {F : Type} `{Float64 F}.

(** [class Interval] *)
Record Interval : Type := { lo : F; hi : F }.

(** [Interval.width] *)
Definition width (self : Interval) : F := f_sub (hi self) (lo self).

(** [sum_intervals] *)
Definition sum_intervals (i j : Interval) : Interval :=
  {| lo := f_add (lo i) (lo j); hi := f_add (hi i) (hi j) |}.

End Python.

Arguments Interval F : clear implicits.

End Interval.

(** A math library on which the lowerings can be run: binary64 with the
    angle functions taken to first order ([atan x = asin x = x]). *)
Global Instance first_order_math : MathLib float := {|
  f_neg := PrimFloat.opp;
  f_negzero := (-0)%float;
  f_is_zero := fun x => PrimFloat.eqb x 0%float;
  math_atan := fun x => inl x;
  math_asin := fun x => inl x;
  target_atan := fun x => x;
  target_asin := fun x => x
|}.

(** * Properties *)

(** ** The quaternion lowering *)

Module QuaternionFacts.
Import Quaternion.

Section Facts.
Context {F : Type} `{Float64 F}.

(** The lowering emits thirty-four instructions and returns the load of
    the result slot. *)
Lemma cuda_quaternion_add_code :
  let '(ret, bld) :=
    cuda_quaternion_add (Argument 0, Argument 1) {| next_temp := 0; code := [] |} in
  ret = Temp 27 /\ length (code bld) = 34%nat.
Proof. by vm_compute. Qed.

Lemma add_componentwise (q1 q2 : Quaternion F) :
  struct_of (__add__ q1 q2) = VStruct (spec_componentwise_sums q1 q2).
Proof. reflexivity. Qed.

(** C10: for every pair of quaternions [q1] and [q2], the code emitted by
    the CUDA lowering of the addition operator computes the quaternion
    whose components are the componentwise sums, and this is the
    quaternion that the pure-Python [Quaternion.__add__] returns.  Python's
    float [+] and the emitted [fadd] are the same binary64 addition
    [f_add]. *)
Theorem cuda_quaternion_add_agrees_with_add (q1 q2 : Quaternion F) :
  lowered_add q1 q2 = Some (VStruct (spec_componentwise_sums q1 q2))
  /\ lowered_add q1 q2 = Some (struct_of (__add__ q1 q2)).
Proof. split; by vm_compute. Qed.

End Facts.

Example kernel_q3 :
  lowered_add (F := float)
    {| a := 1; b := 2; c := 9.75; d := 5 |}%float
    {| a := 3; b := 4; c := 5; d := 6 |}%float
  = Some (VStruct [4; 6; 14.75; 11]%float).
Proof. by vm_compute. Qed.

End QuaternionFacts.

(** ** The Mandelbrot kernel *)

Module MandelFacts.
Import Mandel.

Section Loop.
Context {F : Type} `{Float64 F}.

(** The loop started on the iterate after [k] updates either stops at the
    first later update that leaves the disc, or exhausts its [n] indices. *)
Lemma mandel_loop_first_escape (c : complex F) (n k : nat) (i : Z) :
  (exists j : nat, (j < n)%nat
     /\ escaped (iterate c (S (k + j))) = true
     /\ (forall j' : nat, (j' < j)%nat -> escaped (iterate c (S (k + j'))) = false)
     /\ mandel_loop c (iterate c k) i n = i + Z.of_nat j)
  \/ ((forall j : nat, (j < n)%nat -> escaped (iterate c (S (k + j))) = false)
      /\ mandel_loop c (iterate c k) i n = 255).
Proof.
  revert k i. induction n as [|n IH]; intros k i.
  - right. split; [intros j Hj; lia | reflexivity].
  - cbn [mandel_loop].
    destruct (escaped (update c (iterate c k))) eqn:Hesc.
    + left. exists 0%nat. rewrite Nat.add_0_r. cbn [iterate].
      repeat split; [lia | exact Hesc | intros j' Hj'; lia | lia].
    + change (update c (iterate c k)) with (iterate c (S k)).
      destruct (IH (S k) (i + 1)) as [(j & Hj & He & Hmin & Hres) | [Hnone Hres]].
      * left. exists (S j).
        replace (k + S j)%nat with (S k + j)%nat by lia.
        repeat split; [lia | exact He | | rewrite Hres; lia].
        intros [|j'] Hj'.
        -- rewrite Nat.add_0_r. exact Hesc.
        -- replace (k + S j')%nat with (S k + j')%nat by lia. apply Hmin. lia.
      * right. split; [|exact Hres].
        intros [|j] Hj.
        -- rewrite Nat.add_0_r. exact Hesc.
        -- replace (k + S j)%nat with (S k + j)%nat by lia. apply Hnone. lia.
Qed.

(** C8: [mandel x y max_iters] returns the least index [i] with
    [0 <= i < max_iters] at which the iterate, after [i + 1] updates
    [z = z * z + c] from zero, has [z.real^2 + z.imag^2 >= 4], when there is
    one, and 255 otherwise; for [max_iters <= 255] the result lies in
    [0, 255]. *)
Theorem mandel_least_escaping_index (x y : F) (max_iters : Z) :
  ((exists i, 0 <= i < max_iters
      /\ escapes_at x y i
      /\ (forall j, 0 <= j < i -> ~ escapes_at x y j)
      /\ mandel x y max_iters = i)
   \/ ((forall i, 0 <= i < max_iters -> ~ escapes_at x y i)
       /\ mandel x y max_iters = 255))
  /\ (max_iters <= 255 -> 0 <= mandel x y max_iters <= 255).
Proof.
  unfold mandel, escapes_at.
  set (c := {| real := x; imag := y |}).
  change {| real := f_of_int 0; imag := f_of_int 0 |} with (iterate c 0).
  destruct (mandel_loop_first_escape c (Z.to_nat max_iters) 0 0)
    as [(j & Hj & He & Hmin & Hres) | [Hnone Hres]].
  - split.
    + left. exists (Z.of_nat j). rewrite Nat2Z.id.
      repeat split; [lia | lia | exact He | | rewrite Hres; lia].
      intros j' Hj'. specialize (Hmin (Z.to_nat j')).
      cbn [Nat.add] in Hmin. rewrite Hmin by lia. discriminate.
    + intros Hmax. rewrite Hres. lia.
  - split.
    + right. split; [|exact Hres].
      intros i Hi. specialize (Hnone (Z.to_nat i)).
      cbn [Nat.add] in Hnone. rewrite Hnone by lia. discriminate.
    + intros _. rewrite Hres. lia.
Qed.

End Loop.

Lemma mandel_least_escaping_index_witness :
  20 <= 255 /\ 0 <= mandel (F := float) 2%float 0%float 20 <= 255.
Proof.
  split; [lia|].
  apply (proj2 (mandel_least_escaping_index (F := float) 2%float 0%float 20)). lia.
Defined.

Example mandel_on_boundary : mandel (F := float) 2%float 0%float 20 = 0.
Proof. vm_compute. reflexivity. Qed.

Example mandel_inside : mandel (F := float) 0%float 0%float 20 = 255.
Proof. vm_compute. reflexivity. Qed.

Example mandel_escapes_late : mandel (F := float) 0.5%float 0.5%float 20 = 4.
Proof. vm_compute. reflexivity. Qed.

End MandelFacts.

Module FractalFacts.
Import Mandel.

Section Frame.
Context {F : Type} `{Float64 F}.
Variables (min_x max_x min_y max_y : F) (iters : Z).

Local Abbreviation thread := (create_fractal_thread min_x max_x min_y max_y iters).
Local Abbreviation threads_run := (run_threads min_x max_x min_y max_y iters).

Lemma thread_shape xy image :
  shape0 (thread xy image) = shape0 image /\ shape1 (thread xy image) = shape1 image.
Proof.
  destruct xy as [x y]. unfold create_fractal_thread.
  case_decide; split; reflexivity.
Qed.

Lemma thread_out_of_bounds x y image :
  shape1 image <= x \/ shape0 image <= y -> thread (x, y) image = image.
Proof.
  intros Hout. unfold create_fractal_thread.
  case_decide; [lia | reflexivity].
Qed.

(** Distinct in-range coordinates are distinct elements of [data]. *)
Lemma flat_index_inj w y x r c :
  0 <= x < w -> 0 <= c < w -> 0 <= y -> 0 <= r ->
  Z.to_nat (y * w + x) = Z.to_nat (r * w + c) -> x = c /\ y = r.
Proof.
  intros Hx Hc Hy Hr Heq.
  assert (y * w + x = r * w + c) as Hz by nia.
  assert (y = r) by nia. subst y. lia.
Qed.

Lemma thread_frame xy image r c :
  nonneg xy -> 0 <= r -> 0 <= c < shape1 image -> (c, r) <> xy ->
  getitem (thread xy image) r c = getitem image r c.
Proof.
  destruct xy as [x y]. intros [Hx Hy] Hr Hc Hne. cbn in Hx, Hy.
  unfold create_fractal_thread.
  case_decide as Hin; [|reflexivity].
  unfold getitem, setitem. cbn [data shape1].
  apply list_lookup_insert_ne.
  intros Heq. apply flat_index_inj in Heq; [|lia..].
  destruct Heq as [-> ->]. contradiction.
Qed.

Lemma run_threads_shape threads image :
  shape0 (threads_run threads image) = shape0 image
  /\ shape1 (threads_run threads image) = shape1 image.
Proof.
  revert image. induction threads as [|xy threads IH]; intros image; [done|].
  unfold run_threads in *. cbn [foldl].
  destruct (IH (thread xy image)) as [-> ->]. apply thread_shape.
Qed.

Lemma run_threads_frame threads image r c :
  Forall nonneg threads -> 0 <= r -> 0 <= c < shape1 image -> (c, r) ∉ threads ->
  getitem (threads_run threads image) r c = getitem image r c.
Proof.
  revert image. induction threads as [|xy threads IH]; intros image Hnn Hr Hc Hnotin; [done|].
  apply Forall_cons in Hnn as [Hxy Hnn].
  apply not_elem_of_cons in Hnotin as [Hne Hnotin].
  unfold run_threads in *. cbn [foldl].
  rewrite IH; [| assumption | assumption | | assumption].
  - apply thread_frame; assumption.
  - destruct (thread_shape xy image) as [_ ->]. assumption.
Qed.

Lemma elem_of_grid cfg x y :
  (x, y) ∈ grid cfg <->
  0 <= x < Z.of_nat (gx cfg * bx cfg) /\ 0 <= y < Z.of_nat (gy cfg * by_ cfg).
Proof.
  unfold grid. split.
  - intros Hin.
    apply list_elem_of_bind in Hin as (biy & Hin & Hbiy).
    apply list_elem_of_bind in Hin as (bix & Hin & Hbix).
    apply list_elem_of_bind in Hin as (tiy & Hin & Htiy).
    apply list_elem_of_bind in Hin as (tix & Hin & Htix).
    apply list_elem_of_singleton in Hin. injection Hin as -> ->.
    apply elem_of_seq in Hbiy, Hbix, Htiy, Htix. nia.
  - intros [Hx Hy].
    assert (bx cfg <> 0)%nat as Hbx by nia.
    assert (by_ cfg <> 0)%nat as Hby by nia.
    pose proof (Nat.div_mod (Z.to_nat x) (bx cfg) Hbx) as Hdx.
    pose proof (Nat.mod_upper_bound (Z.to_nat x) (bx cfg) Hbx) as Hmx.
    pose proof (Nat.div_mod (Z.to_nat y) (by_ cfg) Hby) as Hdy.
    pose proof (Nat.mod_upper_bound (Z.to_nat y) (by_ cfg) Hby) as Hmy.
    apply list_elem_of_bind. exists (Z.to_nat y / by_ cfg)%nat. split.
    2:{ apply elem_of_seq. split; [lia|]. cbn.
        apply Nat.Div0.div_lt_upper_bound. lia. }
    apply list_elem_of_bind. exists (Z.to_nat x / bx cfg)%nat. split.
    2:{ apply elem_of_seq. split; [lia|]. cbn.
        apply Nat.Div0.div_lt_upper_bound. lia. }
    apply list_elem_of_bind. exists (Z.to_nat y mod by_ cfg)%nat. split.
    2:{ apply elem_of_seq. lia. }
    apply list_elem_of_bind. exists (Z.to_nat x mod bx cfg)%nat. split.
    2:{ apply elem_of_seq. lia. }
    apply list_elem_of_singleton. f_equal; lia.
Qed.

Lemma grid_nonneg cfg : Forall nonneg (grid cfg).
Proof.
  apply Forall_forall. intros [x y] Hin. apply elem_of_grid in Hin.
  unfold nonneg. cbn. lia.
Qed.

(** C9: a thread of [create_fractal] whose grid coordinates have
    [x >= width] or [y >= height] leaves the image as it is, and after the
    whole launch every element [image[r, c]] that is not at the coordinates
    of a launched thread is unchanged; the shape is unchanged too. *)
Theorem create_fractal_frame (cfg : launch) (image : ndarray) :
  (forall x y, shape1 image <= x \/ shape0 image <= y ->
     create_fractal_thread min_x max_x min_y max_y iters (x, y) image = image)
  /\ (forall r c, 0 <= r < shape0 image -> 0 <= c < shape1 image ->
        ~ (c < Z.of_nat (gx cfg * bx cfg) /\ r < Z.of_nat (gy cfg * by_ cfg)) ->
        getitem (create_fractal cfg min_x max_x min_y max_y image iters) r c
        = getitem image r c)
  /\ shape0 (create_fractal cfg min_x max_x min_y max_y image iters) = shape0 image
  /\ shape1 (create_fractal cfg min_x max_x min_y max_y image iters) = shape1 image.
Proof.
  split; [|split].
  - intros x y. apply thread_out_of_bounds.
  - intros r c Hr Hc Hout. unfold create_fractal.
    apply run_threads_frame; [apply grid_nonneg | lia | lia |].
    rewrite elem_of_grid. lia.
  - apply run_threads_shape.
Qed.

End Frame.

End FractalFacts.

(** ** The memory managers *)

Module CuPyFacts.
Import CuPy.

Section Facts.
Context {P : Type} `{MemoryPool P}.
Implicit Types (w : world P) (l : list MemoryPointer) (mp : MemoryPointer).

Lemma live_app l1 l2 : live (l1 ++ l2) = live l1 ++ live l2.
Proof. unfold live. by rewrite filter_app, !fmap_app. Qed.

Lemma dead_app l1 l2 : dead (l1 ++ l2) = dead l1 ++ dead l2.
Proof. unfold dead. by rewrite filter_app, !fmap_app. Qed.

Lemma live_cons_alive mp l :
  alive mp = true -> live (mp :: l) = fin_ptr (_finalizer mp) :: live l.
Proof. intros Ha. unfold live. by rewrite filter_cons_True. Qed.

Lemma live_cons_dead mp l : alive mp = false -> live (mp :: l) = live l.
Proof.
  intros Ha. unfold live. rewrite filter_cons_False; [done|]. by rewrite Ha.
Qed.

Lemma dead_cons_alive mp l : alive mp = true -> dead (mp :: l) = dead l.
Proof.
  intros Ha. unfold dead. rewrite filter_cons_False; [done|]. by rewrite Ha.
Qed.

Lemma dead_cons_dead mp l :
  alive mp = false -> dead (mp :: l) = fin_ptr (_finalizer mp) :: dead l.
Proof. intros Ha. unfold dead. by rewrite filter_cons_True. Qed.

Lemma live_dead_length l : (length (live l) + length (dead l) = length l)%nat.
Proof.
  induction l as [|mp l IH]; [done|].
  destruct (alive mp) eqn:Ha.
  - rewrite (live_cons_alive _ _ Ha), (dead_cons_alive _ _ Ha). cbn. lia.
  - rewrite (live_cons_dead _ _ Ha), (dead_cons_dead _ _ Ha). cbn. lia.
Qed.

(** Killing the [k]-th pointer moves its address from the live ones to the
    finalized ones. *)
Lemma kill_split l k mp :
  l !! k = Some mp -> alive mp = true ->
  exists l1 l2,
    l = l1 ++ mp :: l2 /\ <[k := kill mp]> l = l1 ++ kill mp :: l2.
Proof.
  intros Hk Ha. exists (take k l), (drop (S k) l). split.
  - symmetry. by apply take_drop_middle.
  - apply insert_take_drop. by eapply lookup_lt_Some.
Qed.

Lemma live_kill l k mp :
  l !! k = Some mp -> alive mp = true ->
  exists A B, live l = A ++ fin_ptr (_finalizer mp) :: B
           /\ live (<[k := kill mp]> l) = A ++ B.
Proof.
  intros Hk Ha. destruct (kill_split l k mp Hk Ha) as (l1 & l2 & Hl & Hl').
  exists (live l1), (live l2). rewrite Hl', Hl at 1. rewrite !live_app.
  rewrite (live_cons_alive _ _ Ha), live_cons_dead; done.
Qed.

Lemma dead_kill l k mp :
  l !! k = Some mp -> alive mp = true ->
  dead (<[k := kill mp]> l) ≡ₚ fin_ptr (_finalizer mp) :: dead l.
Proof.
  intros Hk Ha. destruct (kill_split l k mp Hk Ha) as (l1 & l2 & Hl & Hl').
  rewrite Hl', Hl at 1. rewrite !dead_app.
  rewrite (dead_cons_alive _ _ Ha), dead_cons_dead by done. cbn.
  by rewrite Permutation_middle.
Qed.

Lemma finalizers_run_kill l k mp :
  l !! k = Some mp -> alive mp = true ->
  length (dead (<[k := kill mp]> l)) = S (length (dead l)).
Proof. intros Hk Ha. by rewrite (dead_kill l k mp Hk Ha). Qed.

Lemma tracked_size w :
  tracked w -> size (_allocations (self w)) = length (live (pointers w)).
Proof.
  intros [Hnd Hdom _ _].
  rewrite <- size_dom, <- (size_list_to_set (C := gset Z)) by done.
  f_equal. apply set_eq. intros p.
  rewrite elem_of_dom, elem_of_list_to_set. apply Hdom.
Qed.


(** *** What each operation does to the table, the pointers and the pool *)

Lemma memalloc_uninitialized n w :
  _mp (self w) = None ->
  memalloc n w
  = (Raise (AttributeError "'NoneType' object has no attribute 'malloc'"), w).
Proof. intros Hmp. unfold memalloc. by rewrite Hmp. Qed.

Lemma memalloc_raise n w e p' :
  _mp (self w) = Some DefaultMemoryPool ->
  malloc n (pool w) = (inr e, p') ->
  exists w', memalloc n w = (Raise e, w')
    /\ pointers w' = pointers w
    /\ self w' = self w
    /\ pool_calls w' = pool_calls w ++ [CallMalloc n].
Proof.
  intros Hmp Hm. unfold memalloc. rewrite Hmp. cbn. rewrite Hm. eauto.
Qed.

Lemma memalloc_ok n w cp p' :
  _mp (self w) = Some DefaultMemoryPool ->
  malloc n (pool w) = (inl cp, p') ->
  exists mp w', memalloc n w = (Ok mp, w')
    /\ alive mp = true
    /\ fin_ptr (_finalizer mp) = ptr cp
    /\ pointers w' = pointers w ++ [mp]
    /\ _allocations (self w') = <[ptr cp := cp]> (_allocations (self w))
    /\ _mp (self w') = _mp (self w)
    /\ _disable_count (self w') = _disable_count (self w)
    /\ pool_calls w'
       = pool_calls w ++ CallMalloc n ::
           match _allocations (self w) !! ptr cp with
           | Some old => [CallFree (ptr old)]
           | None => []
           end.
Proof.
  intros Hmp Hm. unfold memalloc. rewrite Hmp. cbn. rewrite Hm.
  eexists _, _. split; [reflexivity|].
  unfold setitem.
  destruct (_logging (self w)); cbn;
    destruct (_allocations (self w) !! ptr cp); cbn;
    rewrite <- ?app_assoc; auto 10.
Qed.

Lemma memalloc_calls_pool n w :
  _mp (self w) = Some DefaultMemoryPool ->
  exists rest, pool_calls (memalloc n w).2 = pool_calls w ++ CallMalloc n :: rest.
Proof.
  intros Hmp. destruct (malloc n (pool w)) as [[cp|e] p'] eqn:Hm.
  - destruct (memalloc_ok n w cp p' Hmp Hm)
      as (mp & w' & Heq & _ & _ & _ & _ & _ & _ & Hcalls).
    rewrite Heq. cbn. rewrite Hcalls. eauto.
  - destruct (memalloc_raise n w e p' Hmp Hm) as (w' & Heq & _ & _ & Hcalls).
    rewrite Heq. cbn. rewrite Hcalls. eauto.
Qed.

Lemma run_finalizer_tracked f w r :
  _allocations (self w) !! fin_ptr f = Some r ->
  exists w', run_finalizer f w = (Ok tt, w')
    /\ pointers w' = pointers w
    /\ _allocations (self w') = delete (fin_ptr f) (_allocations (self w))
    /\ _mp (self w') = _mp (self w)
    /\ _disable_count (self w') = _disable_count (self w)
    /\ pool_calls w' = pool_calls w ++ [CallFree (ptr r)].
Proof.
  intros Hr. unfold run_finalizer.
  destruct (fin_logging f); cbn; rewrite Hr; cbn; eauto 10.
Qed.

Lemma run_finalizer_untracked f w :
  _allocations (self w) !! fin_ptr f = None ->
  exists w', run_finalizer f w = (Raise (KeyError (fin_ptr f)), w')
    /\ pointers w' = pointers w
    /\ self w' = self w
    /\ pool_calls w' = pool_calls w.
Proof.
  intros Hr. unfold run_finalizer.
  destruct (fin_logging f); cbn; rewrite Hr; cbn; eauto 10.
Qed.

Lemma lookup_live l k mp :
  l !! k = Some mp -> alive mp = true -> fin_ptr (_finalizer mp) ∈ live l.
Proof.
  intros Hk Ha. unfold live. do 2 apply list_elem_of_fmap_2.
  apply list_elem_of_filter. split; [done|]. by eapply list_elem_of_lookup_2.
Qed.


(** *** The table invariant along a run *)

Lemma tracked_init LOGGING (p0 : P) : tracked (__init__ LOGGING p0).
Proof.
  split; cbn.
  - constructor.
  - intros p. rewrite lookup_empty. split; [intros [? [=]] | intros []%elem_of_nil].
  - intros p r. by rewrite lookup_empty.
  - reflexivity.
Qed.

Lemma frees_app_malloc w w' n :
  pool_calls w' = pool_calls w ++ [CallMalloc n] -> frees w' = frees w.
Proof. intros Hc. unfold frees. rewrite Hc, omap_app. cbn. apply app_nil_r. Qed.

Lemma frees_app_free w w' p :
  pool_calls w' = pool_calls w ++ [CallFree p] -> frees w' = frees w ++ [p].
Proof. intros Hc. unfold frees. by rewrite Hc, omap_app. Qed.

Lemma tracked_memalloc n w :
  tracked w -> fresh_step (OpMemalloc n) w -> tracked (memalloc n w).2.
Proof.
  intros Htr Hfresh. unfold fresh_step in Hfresh.
  destruct (_mp (self w)) as [[]|] eqn:Hmp.
  2:{ by rewrite (memalloc_uninitialized n w Hmp). }
  destruct (malloc n (pool w)) as [[cp|e] p'] eqn:Hm.
  - destruct (memalloc_ok n w cp p' Hmp Hm)
      as (mp & w' & Heq & Ha & Hptr & Hps & Htab & _ & _ & Hcalls).
    rewrite Heq. cbn.
    rewrite Hfresh in Hcalls. destruct Htr as [Hnd Hdom Hkey Hfr].
    assert (live (pointers w') = live (pointers w) ++ [ptr cp]) as Hlive.
    { rewrite Hps, live_app, (live_cons_alive _ _ Ha), Hptr. done. }
    split.
    + rewrite Hlive. apply NoDup_app. repeat split; [done | | apply NoDup_singleton].
      intros p Hp ->%list_elem_of_singleton.
      apply Hdom in Hp as [r Hr]. congruence.
    + intros p. rewrite Htab, Hlive, elem_of_app, list_elem_of_singleton.
      rewrite lookup_insert_is_Some, Hdom.
      destruct (decide (ptr cp = p)) as [->|Hne]; [tauto|].
      split; [intros [?|[_ ?]]; auto; congruence | intros [?|?]; auto; congruence].
    + intros p r. rewrite Htab. intros [[<- <-]|[_ Hr]]%lookup_insert_Some; eauto.
    + rewrite (frees_app_malloc w w' n Hcalls), Hps, dead_app.
      rewrite (dead_cons_alive _ _ Ha). cbn. by rewrite app_nil_r.
  - destruct (memalloc_raise n w e p' Hmp Hm) as (w' & Heq & Hps & Hself & Hcalls).
    rewrite Heq. cbn. destruct Htr as [Hnd Hdom Hkey Hfr].
    split; rewrite ?Hps, ?Hself, ?(frees_app_malloc w w' n Hcalls); done.
Qed.

Lemma tracked_del k w :
  tracked w -> tracked (del k w).2 /\ (del k w).1 = Ok tt.
Proof.
  intros Htr. unfold del.
  destruct (pointers w !! k) as [mp|] eqn:Hk; [|done].
  destruct (alive mp) eqn:Ha; [|done].
  pose proof Htr as [Hnd Hdom Hkey Hfr].
  pose proof (lookup_live _ _ _ Hk Ha) as Hin.
  apply Hdom in Hin as [r Hr].
  set (w1 := set_pointers (<[k:=kill mp]> (pointers w)) w).
  assert (pointers w1 = <[k:=kill mp]> (pointers w)) as Hps1 by done.
  assert (self w1 = self w) as Hself1 by done.
  assert (frees w1 = frees w) as Hfrees1 by done.
  rewrite <- Hself1 in Hr.
  destruct (run_finalizer_tracked (_finalizer mp) w1 r Hr)
    as (w' & Heq & Hps & Htab & _ & _ & Hcalls).
  rewrite Hself1 in Hr, Htab. rewrite Hps1 in Hps. clearbody w1.
  rewrite Heq. cbn [fst snd]. split; [|done].
  destruct (live_kill _ _ _ Hk Ha) as (A & B & HAB & HAB').
  rewrite HAB in Hnd, Hdom. apply NoDup_app in Hnd as (HA & HAB1 & HB).
  apply NoDup_cons in HB as [HpB HB].
  assert (fin_ptr (_finalizer mp) ∉ A) as HpA.
  { intros Hp. apply (HAB1 _ Hp). left. }
  split.
  - rewrite Hps, HAB'. apply NoDup_app. repeat split; [done | | done].
    intros p Hp HpB'. apply (HAB1 _ Hp). by right.
  - intros p. rewrite Htab, Hps, HAB', lookup_delete_is_Some, Hdom.
    rewrite !elem_of_app, elem_of_cons. split.
    + intros [Hne [?|[?|?]]]; auto. congruence.
    + intros [?|?]; (split; [intros <-; contradiction | auto]).
  - intros p r'. rewrite Htab. intros [_ Hr']%lookup_delete_Some. eauto.
  - rewrite (frees_app_free w1 w' _ Hcalls), Hps, Hfrees1.
    rewrite (dead_kill _ _ _ Hk Ha), (Hkey _ _ Hr), Hfr.
    symmetry. apply Permutation_cons_append.
Qed.

Lemma tracked_same w w' :
  pointers w' = pointers w ->
  _allocations (self w') = _allocations (self w) ->
  frees w' = frees w ->
  tracked w -> tracked w'.
Proof. intros Hps Htab Hfr [? ? ? ?]. split; rewrite ?Hps, ?Htab, ?Hfr; done. Qed.

Lemma frees_reset w : frees (reset w).2 = frees w.
Proof.
  unfold reset, frees. destruct (_mp (self w)) as [[]|]; cbn; [|done].
  rewrite omap_app. cbn. apply app_nil_r.
Qed.

Lemma frees_get_memory_info w : frees (get_memory_info w).2 = frees w.
Proof.
  unfold get_memory_info, frees. destruct (_mp (self w)) as [[]|]; cbn; [|done].
  rewrite !omap_app. cbn. by rewrite !app_nil_r.
Qed.

Lemma tracked_step o w :
  tracked w -> fresh_step o w ->
  tracked (step o w).2 /\ finalizer_found o (step o w).1.
Proof.
  intros Htr Hfresh. destruct o as [| |n|k| | |]; cbn [step finalizer_found].
  - split; [|done]. by apply (tracked_same w).
  - split; [|done]. apply (tracked_same w); [| |apply frees_reset|done];
      unfold reset; by destruct (_mp (self w)) as [[]|].
  - pose proof (tracked_memalloc n w Htr Hfresh) as Ht.
    destruct (memalloc n w) as [[mp|e] w']; done.
  - apply tracked_del, Htr.
  - pose proof (frees_get_memory_info w) as Hfr.
    assert (pointers (get_memory_info w).2 = pointers w
            /\ self (get_memory_info w).2 = self w) as [Hps Hself].
    { unfold get_memory_info. by destruct (_mp (self w)) as [[]|]. }
    destruct (get_memory_info w) as [r w']. cbn in *. split; [|done].
    apply (tracked_same w); [done | by rewrite Hself | done | done].
  - split; [|done]. by apply (tracked_same w).
  - split; [|done]. by apply (tracked_same w).
Qed.

Lemma run_cons o ops w :
  run (o :: ops) w = ((step o w).1 :: (run ops (step o w).2).1, (run ops (step o w).2).2).
Proof.
  cbn [run]. destruct (step o w) as [r w1]. cbn [fst snd].
  by destruct (run ops w1).
Qed.

Lemma run_app ops1 ops2 w :
  run (ops1 ++ ops2) w
  = ((run ops1 w).1 ++ (run ops2 (run ops1 w).2).1, (run ops2 (run ops1 w).2).2).
Proof.
  revert w. induction ops1 as [|o ops1 IH]; intros w.
  - cbn. by destruct (run ops2 w).
  - rewrite <- app_comm_cons, !run_cons, IH. reflexivity.
Qed.

Lemma fresh_run_app ops1 ops2 w :
  fresh_run (ops1 ++ ops2) w <-> fresh_run ops1 w /\ fresh_run ops2 (run ops1 w).2.
Proof.
  revert w. induction ops1 as [|o ops1 IH]; intros w.
  - cbn. tauto.
  - rewrite <- app_comm_cons, run_cons. cbn [fresh_run snd]. rewrite IH. tauto.
Qed.

Lemma tracked_run ops w :
  tracked w -> fresh_run ops w ->
  tracked (run ops w).2 /\ Forall2 finalizer_found ops (run ops w).1.
Proof.
  revert w. induction ops as [|o ops IH]; intros w Htr Hfresh.
  - cbn. auto.
  - destruct Hfresh as [Hf1 Hf2]. rewrite run_cons. cbn [fst snd].
    destruct (tracked_step o w Htr Hf1) as [Htr1 Hk1].
    destruct (IH _ Htr1 Hf2) as [Htr2 Hk2]. auto.
Qed.


Lemma finalizer_removes_once f w :
  is_Some (_allocations (self w) !! fin_ptr f) ->
  (run_finalizer f w).1 = Ok tt
  /\ _allocations (self (run_finalizer f w).2) = delete (fin_ptr f) (_allocations (self w))
  /\ (run_finalizer f (run_finalizer f w).2).1 = Raise (KeyError (fin_ptr f))
  /\ _allocations (self (run_finalizer f (run_finalizer f w).2).2)
     = delete (fin_ptr f) (_allocations (self w)).
Proof.
  intros [r Hr].
  destruct (run_finalizer_tracked f w r Hr) as (w1 & Heq & _ & Htab & _).
  rewrite Heq. cbn [fst snd].
  assert (_allocations (self w1) !! fin_ptr f = None) as Hgone.
  { rewrite Htab. apply lookup_delete_eq. }
  destruct (run_finalizer_untracked f w1 Hgone) as (w2 & Heq2 & _ & Hself & _).
  rewrite Heq2. cbn [fst snd]. by rewrite Hself.
Qed.

Lemma memalloc_inserts_one_entry n w mp w' :
  memalloc n w = (Ok mp, w') ->
  _allocations (self w')
  = <[fin_ptr (_finalizer mp) := {| ptr := fin_ptr (_finalizer mp) |}]>
      (_allocations (self w)).
Proof.
  intros Heq.
  destruct (_mp (self w)) as [[]|] eqn:Hmp.
  2:{ by rewrite (memalloc_uninitialized n w Hmp) in Heq. }
  destruct (malloc n (pool w)) as [[cp|e] p'] eqn:Hm.
  - destruct (memalloc_ok n w cp p' Hmp Hm)
      as (mp1 & w1 & Heq1 & _ & Hptr & _ & Htab & _).
    rewrite Heq1 in Heq. injection Heq as <- <-.
    rewrite Htab, Hptr. by destruct cp.
  - destruct (memalloc_raise n w e p' Hmp Hm) as (w1 & Heq1 & _).
    by rewrite Heq1 in Heq.
Qed.

(** C1: along every run of manager operations in which the pool hands out
    addresses that are not live, the number of entries of the allocation
    table is the number of allocations made minus the number of finalizers
    run; the difference never goes below zero; the table holds exactly the
    live addresses, each once; every finalizer fired finds its entry.  Each
    successful [memalloc] inserts one entry under the returned address, and
    a finalizer removes exactly that entry, once: run again it raises
    [KeyError] and removes nothing. *)
Theorem allocation_table_counts_live_buffers (LOGGING : bool) (p0 : P) (ops : list op) :
  fresh_run ops (__init__ LOGGING p0) ->
  let w := (run ops (__init__ LOGGING p0)).2 in
  size (_allocations (self w)) = (allocations_made w - finalizers_run w)%nat
  /\ (finalizers_run w <= allocations_made w)%nat
  /\ NoDup (live_addresses w)
  /\ (forall p, is_Some (_allocations (self w) !! p) <-> p ∈ live_addresses w)
  /\ Forall2 finalizer_found ops (run ops (__init__ LOGGING p0)).1
  /\ (forall n (v v' : world P) mp, memalloc n v = (Ok mp, v') ->
        _allocations (self v')
        = <[fin_ptr (_finalizer mp) := {| ptr := fin_ptr (_finalizer mp) |}]>
            (_allocations (self v)))
  /\ (forall f (v : world P), is_Some (_allocations (self v) !! fin_ptr f) ->
        (run_finalizer f v).1 = Ok tt
        /\ _allocations (self (run_finalizer f v).2)
           = delete (fin_ptr f) (_allocations (self v))
        /\ (run_finalizer f (run_finalizer f v).2).1 = Raise (KeyError (fin_ptr f))
        /\ _allocations (self (run_finalizer f (run_finalizer f v).2).2)
           = delete (fin_ptr f) (_allocations (self v))).
Proof.
  intros Hfresh w.
  destruct (tracked_run ops _ (tracked_init LOGGING p0) Hfresh) as [Htr Hfound].
  fold w in Htr.
  pose proof (live_dead_length (pointers w)) as Hlen.
  unfold allocations_made, finalizers_run, finalized_addresses, live_addresses.
  rewrite (tracked_size w Htr).
  repeat split; try lia; try apply Htr; try done.
  - intros n v v' mp. apply memalloc_inserts_one_entry.
  - by apply finalizer_removes_once.
  - by apply finalizer_removes_once.
  - by apply finalizer_removes_once.
  - by apply finalizer_removes_once.
Qed.

(** *** Deferred cleanup *)

Lemma disable_count_step o w :
  o <> OpExitDefer ->
  (_disable_count (self w) <= _disable_count (self (step o w).2))%nat.
Proof.
  intros Hne. destruct o as [| |n|k| | |]; cbn [step]; try done.
  - unfold reset. by destruct (_mp (self w)) as [[]|].
  - destruct (_mp (self w)) as [[]|] eqn:Hmp.
    2:{ by rewrite (memalloc_uninitialized n w Hmp). }
    destruct (malloc n (pool w)) as [[cp|e] p'] eqn:Hm.
    + destruct (memalloc_ok n w cp p' Hmp Hm)
        as (mp1 & w1 & Heq1 & _ & _ & _ & _ & _ & Hd & _).
      rewrite Heq1. cbn [fst snd]. by rewrite Hd.
    + destruct (memalloc_raise n w e p' Hmp Hm) as (w1 & Heq1 & _ & Hself & _).
      rewrite Heq1. cbn [fst snd]. by rewrite Hself.
  - unfold del. destruct (pointers w !! k) as [mp|]; [|done].
    destruct (alive mp); [|done].
    set (w1 := set_pointers _ w).
    change (_disable_count (self w)) with (_disable_count (self w1)).
    destruct (_allocations (self w1) !! fin_ptr (_finalizer mp)) as [r|] eqn:Hr.
    + destruct (run_finalizer_tracked _ w1 r Hr) as (w' & Heq & _ & _ & _ & Hd & _).
      rewrite Heq. cbn [fst snd]. by rewrite Hd.
    + destruct (run_finalizer_untracked _ w1 Hr) as (w' & Heq & _ & Hself & _).
      rewrite Heq. cbn [fst snd]. by rewrite Hself.
  - unfold get_memory_info. by destruct (_mp (self w)) as [[]|].
  - cbn. lia.
Qed.

Lemma disable_count_run ops w :
  OpExitDefer ∉ ops ->
  (_disable_count (self w) <= _disable_count (self (run ops w).2))%nat.
Proof.
  revert w. induction ops as [|o ops IH]; intros w Hno; [done|].
  apply not_elem_of_cons in Hno as [Hne Hno].
  rewrite run_cons. cbn [snd].
  etrans; [apply (disable_count_step o w); congruence | by apply IH].
Qed.

(** C2, as the code has it: in a run in which the pool hands out addresses
    that are not live, pointers dropped while a [defer_cleanup] scope is
    active are finalized at the drop.  At any moment inside the scope the
    blocks handed back to the pool are those of the pointers dropped so far,
    each exactly once, so that N drops inside the scope make N frees before
    the scope exits; no finalizer raises, and leaving the scope frees
    nothing more. *)
Theorem defer_cleanup_releases_at_once (LOGGING : bool) (p0 : P)
    (ops_before ops_inside : list op) :
  fresh_run (ops_before ++ OpEnterDefer :: ops_inside) (__init__ LOGGING p0) ->
  OpExitDefer ∉ ops_inside ->
  let w0 := (run ops_before (__init__ LOGGING p0)).2 in
  let w1 := (run ops_inside (defer_cleanup_enter w0)).2 in
  let w2 := defer_cleanup_exit w1 in
  (0 < _disable_count (self w1))%nat
  /\ length (frees w0) = finalizers_run w0
  /\ length (frees w1) = finalizers_run w1
  /\ frees w1 ≡ₚ finalized_addresses w1
  /\ frees w2 = frees w1
  /\ Forall2 finalizer_found ops_inside (run ops_inside (defer_cleanup_enter w0)).1.
Proof.
  intros Hfresh Hno w0 w1 w2.
  apply fresh_run_app in Hfresh as [Hf0 [_ Hf1]]. cbn [step snd] in Hf1. fold w0 in Hf1.
  destruct (tracked_run _ _ (tracked_init LOGGING p0) Hf0) as [Htr0 _]. fold w0 in Htr0.
  assert (tracked (defer_cleanup_enter w0)) as Htr0' by by apply (tracked_same w0).
  destruct (tracked_run _ _ Htr0' Hf1) as [Htr1 Hfound]. fold w1 in Htr1.
  pose proof (disable_count_run ops_inside (defer_cleanup_enter w0) Hno) as Hd.
  fold w1 in Hd. cbn in Hd.
  unfold finalizers_run, finalized_addresses.
  repeat split; try done.
  - lia.
  - by rewrite (tracked_frees _ Htr0).
  - by rewrite (tracked_frees _ Htr1).
  - apply Htr1.
Qed.

(** *** Before [initialize] *)

Lemma uninitialized_init LOGGING (p0 : P) : uninitialized (__init__ LOGGING p0).
Proof. by split. Qed.

Lemma uninitialized_step o w :
  o <> OpInitialize -> uninitialized w -> uninitialized (step o w).2.
Proof.
  intros Hne [Hmp Hps Htab Hcalls]. destruct o as [| |n|k| | |]; cbn [step]; try done.
  - unfold reset. by rewrite Hmp.
  - by rewrite (memalloc_uninitialized n w Hmp).
  - unfold del. by rewrite Hps.
  - unfold get_memory_info. by rewrite Hmp.
Qed.

Lemma uninitialized_run ops w :
  OpInitialize ∉ ops -> uninitialized w -> uninitialized (run ops w).2.
Proof.
  revert w. induction ops as [|o ops IH]; intros w Hno Hun; [done|].
  apply not_elem_of_cons in Hno as [Hne Hno].
  rewrite run_cons. cbn [snd]. apply IH; [done|].
  apply uninitialized_step; [congruence | done].
Qed.

(** *** [reset] *)

(** C4, as the code has it: [reset] keeps no count of live allocations and
    never fails.  Whatever the allocation table holds, on an initialized
    manager it tells the pool to free all its blocks, once, and on a manager
    without a pool it does nothing; the table and the pointers are left as
    they are. *)
Theorem reset_never_refuses w :
  (reset w).1 = Ok tt
  /\ _allocations (self (reset w).2) = _allocations (self w)
  /\ pointers (reset w).2 = pointers w
  /\ pool_calls (reset w).2
     = pool_calls w ++ match _mp (self w) with
                       | Some _ => [CallFreeAllBlocks]
                       | None => []
                       end
  /\ pool (reset w).2
     = match _mp (self w) with
       | Some _ => free_all_blocks (pool w)
       | None => pool w
       end.
Proof.
  unfold reset. destruct (_mp (self w)) as [[]|]; cbn; rewrite ?app_nil_r; done.
Qed.

End Facts.
End CuPyFacts.

Module SimpleFacts.
Import Simple.

Lemma append_length (s1 s2 : string) :
  String.length (s1 +:+ s2) = (String.length s1 + String.length s2)%nat.
Proof.
  induction s1 as [|a s1 IH]; [done|].
  change (S (String.length (s1 +:+ s2)) = S (String.length s1 + String.length s2)).
  by rewrite IH.
Qed.

Lemma append_inj_r (s s1 s2 : string) : s1 +:+ s = s2 +:+ s -> s1 = s2.
Proof.
  revert s2. induction s1 as [|a s1 IH]; intros [|b s2] Heq.
  - done.
  - apply (f_equal String.length) in Heq. rewrite !append_length in Heq.
    cbn in Heq. lia.
  - apply (f_equal String.length) in Heq. rewrite !append_length in Heq.
    cbn in Heq. lia.
  - change (String a (s1 +:+ s) = String b (s2 +:+ s)) in Heq.
    injection Heq as -> Heq. f_equal. by apply IH.
Qed.

Lemma unexpected_return_code_inj : Inj (=) (=) unexpected_return_code.
Proof.
  intros r1 r2 Heq. unfold unexpected_return_code in Heq.
  apply (inj (String.app _)) in Heq.
  apply append_inj_r in Heq. by apply (inj pretty) in Heq.
Qed.

Section Facts.
Context {D : Type} `{CudaRuntime D}.
Implicit Types (w : world D).

Lemma my_alloc_spec size w :
  let ret := (cudaMalloc (c_size_t size) (driver w)).1.1 in
  (my_alloc size w).1
  = (if decide (ret = 0) then Ok (cudaMalloc (c_size_t size) (driver w)).1.2
     else Raise (RuntimeError (unexpected_return_code ret)))
  /\ driver_calls (my_alloc size w).2
     = driver_calls w ++ [CallCudaMalloc (c_size_t size)].
Proof.
  unfold my_alloc. destruct (cudaMalloc (c_size_t size) (driver w)) as [[ret p] d].
  cbn. by case_decide.
Qed.

(** C7: when [cudaMalloc] fails, the [RuntimeError] raised by [my_alloc]
    carries the return code in its message, and two different return codes
    give two different errors: the error for out of memory (code 2) differs
    from the error for every other failure of the allocator. *)
Theorem my_alloc_failures_are_told_apart (size1 size2 : Z) (w1 w2 : world D) :
  let ret1 := (cudaMalloc (c_size_t size1) (driver w1)).1.1 in
  let ret2 := (cudaMalloc (c_size_t size2) (driver w2)).1.1 in
  ret1 <> 0 -> ret2 <> 0 -> ret1 <> ret2 ->
  (my_alloc size1 w1).1 = Raise (RuntimeError (unexpected_return_code ret1))
  /\ (my_alloc size2 w2).1 = Raise (RuntimeError (unexpected_return_code ret2))
  /\ (my_alloc size1 w1).1 <> (my_alloc size2 w2).1.
Proof.
  intros ret1 ret2 H1 H2 Hne.
  destruct (my_alloc_spec size1 w1) as [E1 _], (my_alloc_spec size2 w2) as [E2 _].
  cbn zeta in E1, E2. fold ret1 in E1. fold ret2 in E2.
  rewrite decide_False in E1 by done. rewrite decide_False in E2 by done.
  rewrite E1, E2. repeat split.
  intros Heq. apply Hne, unexpected_return_code_inj. congruence.
Qed.

Lemma my_free_never_raises p w :
  (my_free p w).1 = Ok tt
  /\ driver_calls (my_free p w).2 = driver_calls w ++ [CallCudaFree (c_size_t p)].
Proof. unfold my_free. by destruct (cudaFree (c_size_t p) (driver w)). Qed.

Lemma memalloc_spec size w :
  (memalloc size w).1
  = (if decide ((cudaMalloc (c_size_t size) (driver w)).1.1 = 0)
     then Ok {| device_pointer := (cudaMalloc (c_size_t size) (driver w)).1.2;
                memsize := size;
                _finalizer := make_finalizer (cudaMalloc (c_size_t size) (driver w)).1.2 |}
     else Raise (RuntimeError
                   (unexpected_return_code (cudaMalloc (c_size_t size) (driver w)).1.1)))
  /\ driver_calls (memalloc size w).2
     = driver_calls w ++ [CallCudaMalloc (c_size_t size)].
Proof.
  unfold memalloc, my_alloc.
  destruct (cudaMalloc (c_size_t size) (driver w)) as [[ret p] d].
  cbn. by case_decide.
Qed.

End Facts.
End SimpleFacts.

(** ** Both managers *)

Module EMMFacts.

Section Facts.
Context {P : Type} `{CuPy.MemoryPool P} {D : Type} `{Simple.CudaRuntime D}.

Lemma cupy_memalloc_outcome n (w : CuPy.world P) :
  CuPy._mp (CuPy.self w) = Some CuPy.DefaultMemoryPool ->
  is_Ok (CuPy.memalloc n w).1
  = match (CuPy.malloc n (CuPy.pool w)).1 with inl _ => true | inr _ => false end.
Proof.
  intros Hmp. destruct (CuPy.malloc n (CuPy.pool w)) as [[cp|e] p'] eqn:Hm.
  - destruct (CuPyFacts.memalloc_ok n w cp p' Hmp Hm) as (mp & w' & Heq & _).
    by rewrite Heq.
  - destruct (CuPyFacts.memalloc_raise n w e p' Hmp Hm) as (w' & Heq & _).
    by rewrite Heq.
Qed.

(** C3, as the code has it: on a pool-backed manager on which [initialize]
    has not been called, every call to [memalloc] fails, with the
    [AttributeError] of the missing pool, and neither creates an entry in
    the allocation table nor reaches the pool.  The direct manager needs no
    initialization: its [initialize] does nothing. *)
Theorem memalloc_before_initialize (LOGGING : bool) (p0 : P)
    (ops : list CuPy.op) (n : Z) (v : Simple.world D) :
  CuPy.OpInitialize ∉ ops ->
  let w := (CuPy.run ops (CuPy.__init__ LOGGING p0)).2 in
  CuPy.memalloc n w
  = (Raise (AttributeError "'NoneType' object has no attribute 'malloc'"), w)
  /\ CuPy._allocations (CuPy.self w) = ∅
  /\ CuPy.pool_calls w = []
  /\ Simple.initialize v = (Ok tt, v).
Proof.
  intros Hno w.
  destruct (CuPyFacts.uninitialized_run ops _ Hno (CuPyFacts.uninitialized_init LOGGING p0))
    as [Hmp _ Htab Hcalls].
  fold w in Hmp, Htab, Hcalls.
  by rewrite (CuPyFacts.memalloc_uninitialized n w Hmp).
Qed.

(** C5, as the code has it: [memalloc] does not look at the requested
    size.  For every size, zero and negative ones included, an initialized
    pool-backed manager passes the request to the pool's [malloc] as it is
    and the direct manager passes it, converted to [size_t], to
    [cudaMalloc]; the call fails exactly when the backing allocator does. *)
Theorem memalloc_forwards_every_size (n : Z) (w : CuPy.world P) (v : Simple.world D) :
  CuPy._mp (CuPy.self w) = Some CuPy.DefaultMemoryPool ->
  (exists rest,
      CuPy.pool_calls (CuPy.memalloc n w).2
      = CuPy.pool_calls w ++ CuPy.CallMalloc n :: rest)
  /\ is_Ok (CuPy.memalloc n w).1
     = match (CuPy.malloc n (CuPy.pool w)).1 with inl _ => true | inr _ => false end
  /\ Simple.driver_calls (Simple.memalloc n v).2
     = Simple.driver_calls v ++ [Simple.CallCudaMalloc (c_size_t n)]
  /\ is_Ok (Simple.memalloc n v).1
     = bool_decide ((Simple.cudaMalloc (c_size_t n) (Simple.driver v)).1.1 = 0).
Proof.
  intros Hmp. split; [by apply CuPyFacts.memalloc_calls_pool|].
  split; [by apply cupy_memalloc_outcome|].
  destruct (SimpleFacts.memalloc_spec n v) as [Hres Hcalls].
  split; [done|]. rewrite Hres.
  by case_decide; [rewrite bool_decide_true | rewrite bool_decide_false].
Qed.

End Facts.

End EMMFacts.

(** ** Runs on the arena pool and on the model driver *)

Module Scenarios.

Import CuPy.

Lemma allocation_table_counts_live_buffers_witness :
  fresh_run
    [OpInitialize; OpMemalloc 1024; OpMemalloc 512; OpDrop 0; OpEnterDefer;
     OpMemalloc 16; OpDrop 2; OpExitDefer; OpReset; OpGetMemoryInfo; OpDrop 0]
    (__init__ true Arena.fresh_arena)
  /\ size (_allocations (self (run
       [OpInitialize; OpMemalloc 1024; OpMemalloc 512; OpDrop 0; OpEnterDefer;
        OpMemalloc 16; OpDrop 2; OpExitDefer; OpReset; OpGetMemoryInfo; OpDrop 0]
       (__init__ true Arena.fresh_arena)).2))
     = (3 - 2)%nat.
Proof.
  assert (fresh_run
    [OpInitialize; OpMemalloc 1024; OpMemalloc 512; OpDrop 0; OpEnterDefer;
     OpMemalloc 16; OpDrop 2; OpExitDefer; OpReset; OpGetMemoryInfo; OpDrop 0]
    (__init__ true Arena.fresh_arena)) as Hfresh.
  { vm_compute. repeat split. }
  split; [exact Hfresh|].
  exact (proj1 (CuPyFacts.allocation_table_counts_live_buffers
                  true Arena.fresh_arena _ Hfresh)).
Defined.

(** Without fresh addresses the count is off: two requests of zero bytes
    get the same address from the arena and share one entry. *)
Example table_count_needs_fresh_addresses :
  let w := (run [OpInitialize; OpMemalloc 0; OpMemalloc 0]
                (__init__ false Arena.fresh_arena)).2 in
  allocations_made w = 2%nat /\ finalizers_run w = 0%nat
  /\ size (_allocations (self w)) = 1%nat.
Proof. by vm_compute. Qed.

(** C1 fails as stated: two requests of zero bytes get the same address,
    so two allocations with no finalizer run leave one entry; dropping the
    first pointer then empties the table while the second is still alive,
    and the pool has been given the address back twice. *)
Lemma zero_byte_allocations_share_an_entry :
  let w := (run [OpInitialize; OpMemalloc 0; OpMemalloc 0]
                (__init__ false Arena.fresh_arena)).2 in
  let w' := (run [OpDrop 0] w).2 in
  (allocations_made w = 2%nat /\ finalizers_run w = 0%nat
   /\ size (_allocations (self w)) = 1%nat)
  /\ size (_allocations (self w)) <> (allocations_made w - finalizers_run w)%nat
  /\ _allocations (self w') = ∅
  /\ live_addresses w' = [4096]
  /\ frees w' = [4096; 4096].
Proof. vm_compute. repeat split. discriminate. Qed.

(** Inside a [defer_cleanup] scope too the addresses must be fresh: with
    two requests of zero bytes one block goes back to the pool at the
    second [memalloc], and the finalizer of the second pointer raises. *)
Example deferred_scope_needs_fresh_addresses :
  let w0 := defer_cleanup_enter
              (run [OpInitialize] (__init__ false Arena.fresh_arena)).2 in
  frees (run [OpMemalloc 0; OpMemalloc 0] w0).2 = [4096]
  /\ (run [OpMemalloc 0; OpMemalloc 0; OpDrop 0; OpDrop 1] w0).1
     = [Ok tt; Ok tt; Ok tt; Raise (KeyError 4096)].
Proof. by vm_compute. Qed.

(** C2 fails as stated: a pointer dropped inside [defer_cleanup] gives its
    block back to the pool at once, while the scope is still active. *)
Lemma deferred_drop_frees_before_scope_exit :
  let w := (run [OpMemalloc 1024; OpDrop 0]
                (defer_cleanup_enter
                   (run [OpInitialize] (__init__ true Arena.fresh_arena)).2)).2 in
  _disable_count (self w) = 1%nat /\ frees w = [4096] /\ length (frees w) <> 0%nat.
Proof. vm_compute. repeat split. discriminate. Qed.

Lemma defer_cleanup_releases_at_once_witness :
  (fresh_run ([OpInitialize; OpMemalloc 256] ++ OpEnterDefer ::
                [OpMemalloc 1024; OpMemalloc 64; OpDrop 1; OpDrop 0; OpDrop 2])
             (__init__ true Arena.fresh_arena)
   /\ OpExitDefer ∉ [OpMemalloc 1024; OpMemalloc 64; OpDrop 1; OpDrop 0; OpDrop 2])
  /\ length (frees (run [OpMemalloc 1024; OpMemalloc 64; OpDrop 1; OpDrop 0; OpDrop 2]
                        (defer_cleanup_enter
                           (run [OpInitialize; OpMemalloc 256]
                                (__init__ true Arena.fresh_arena)).2)).2)
     = 3%nat.
Proof.
  assert (fresh_run ([OpInitialize; OpMemalloc 256] ++ OpEnterDefer ::
                       [OpMemalloc 1024; OpMemalloc 64; OpDrop 1; OpDrop 0; OpDrop 2])
                    (__init__ true Arena.fresh_arena)) as Hfresh.
  { vm_compute. repeat split. }
  assert (OpExitDefer ∉ [OpMemalloc 1024; OpMemalloc 64; OpDrop 1; OpDrop 0; OpDrop 2])
    as Hno.
  { apply (bool_decide_unpack _). vm_compute. exact I. }
  split; [by split|].
  exact (proj1 (proj2 (proj2 (CuPyFacts.defer_cleanup_releases_at_once
                                true Arena.fresh_arena _ _ Hfresh Hno)))).
Defined.

(** C3 fails as stated: the direct manager allocates before [initialize]. *)
Lemma direct_memalloc_before_initialize_succeeds :
  (Simple.memalloc 1000 (Simple.new_world Simple.fresh_device)).1
  = Ok {| Simple.device_pointer := 512; Simple.memsize := 1000;
          Simple._finalizer := {| Simple.fin_ptr := 512 |} |}
  /\ ~ (exists e, (Simple.memalloc 1000 (Simple.new_world Simple.fresh_device)).1
                  = Raise e).
Proof. split; [by vm_compute|]. intros [e He]. vm_compute in He. discriminate. Qed.

Lemma memalloc_before_initialize_witness :
  (OpInitialize ∉ [OpReset; OpMemalloc 16; OpEnterDefer; OpGetMemoryInfo; OpDrop 0])
  /\ (memalloc 1024
        (run [OpReset; OpMemalloc 16; OpEnterDefer; OpGetMemoryInfo; OpDrop 0]
             (__init__ true Arena.fresh_arena)).2).1
     = Raise (AttributeError "'NoneType' object has no attribute 'malloc'").
Proof.
  assert (OpInitialize ∉ [OpReset; OpMemalloc 16; OpEnterDefer; OpGetMemoryInfo; OpDrop 0])
    as Hno.
  { apply (bool_decide_unpack _). vm_compute. exact I. }
  split; [exact Hno|].
  rewrite (proj1 (EMMFacts.memalloc_before_initialize
                    true Arena.fresh_arena _ 1024
                    (Simple.new_world Simple.fresh_device) Hno)).
  reflexivity.
Defined.

(** C4 fails as stated: [reset] with a live allocation goes through and
    tells the pool to free all its blocks. *)
Lemma reset_with_live_allocation_goes_through :
  let w := (run [OpInitialize; OpMemalloc 1024] (__init__ true Arena.fresh_arena)).2 in
  size (_allocations (self w)) = 1%nat
  /\ (reset w).1 = Ok tt
  /\ pool_calls (reset w).2 = [CallMalloc 1024; CallFreeAllBlocks].
Proof. by vm_compute. Qed.

(** C5 fails as stated: a request of zero bytes reaches the pool and
    succeeds; a negative one reaches [cudaMalloc]. *)
Lemma memalloc_zero_reaches_the_pool :
  let w := (run [OpInitialize] (__init__ true Arena.fresh_arena)).2 in
  is_Ok (memalloc 0 w).1 = true
  /\ pool_calls (memalloc 0 w).2 = [CallMalloc 0]
  /\ Simple.driver_calls (Simple.memalloc (-1) (Simple.new_world Simple.fresh_device)).2
     = [Simple.CallCudaMalloc (2 ^ 64 - 1)].
Proof. by vm_compute. Qed.

Lemma memalloc_forwards_every_size_witness :
  _mp (self (run [OpInitialize] (__init__ true Arena.fresh_arena)).2)
  = Some DefaultMemoryPool
  /\ Simple.driver_calls (Simple.memalloc (-4) (Simple.new_world Simple.fresh_device)).2
     = Simple.driver_calls (Simple.new_world Simple.fresh_device)
       ++ [Simple.CallCudaMalloc (c_size_t (-4))].
Proof.
  split; [reflexivity|].
  exact (proj1 (proj2 (proj2 (EMMFacts.memalloc_forwards_every_size
    (-4) (run [OpInitialize] (__init__ true Arena.fresh_arena)).2
    (Simple.new_world Simple.fresh_device) eq_refl)))).
Defined.

(** C6 at a second finalization of the same address on the direct manager:
    [cudaFree] answers 1 (invalid value) and the finalizer returns as if
    nothing had happened. *)
Theorem second_finalization_goes_unreported :
  exists mp w1 w2 w3,
    Simple.memalloc 1000 (Simple.new_world Simple.fresh_device) = (Ok mp, w1)
    /\ Simple.run_finalizer (Simple._finalizer mp) w1 = (Ok tt, w2)
    /\ (Simple.cudaFree (c_size_t (Simple.fin_ptr (Simple._finalizer mp)))
          (Simple.driver w2)).1 = 1
    /\ Simple.run_finalizer (Simple._finalizer mp) w2 = (Ok tt, w3).
Proof. do 4 eexists. repeat split; by vm_compute. Qed.

(** On the pool-backed manager the same second finalization raises. *)
Example second_finalization_raises_on_the_pool :
  let w := (run [OpInitialize; OpMemalloc 1024] (__init__ true Arena.fresh_arena)).2 in
  let f := {| fin_nbytes := 1024; fin_ptr := 4096; fin_logging := true |} in
  (run_finalizer f w).1 = Ok tt
  /\ (run_finalizer f (run_finalizer f w).2).1 = Raise (KeyError 4096).
Proof. by vm_compute. Qed.

Lemma my_alloc_failures_are_told_apart_witness :
  ((Simple.cudaMalloc (c_size_t 10000) (Simple.driver (Simple.new_world Simple.fresh_device))).1.1 <> 0
   /\ (Simple.cudaMalloc (c_size_t 16) (Simple.driver (Simple.new_world Simple.unready_device))).1.1 <> 0
   /\ (Simple.cudaMalloc (c_size_t 10000) (Simple.driver (Simple.new_world Simple.fresh_device))).1.1
      <> (Simple.cudaMalloc (c_size_t 16) (Simple.driver (Simple.new_world Simple.unready_device))).1.1)
  /\ (Simple.my_alloc 10000 (Simple.new_world Simple.fresh_device)).1
     <> (Simple.my_alloc 16 (Simple.new_world Simple.unready_device)).1.
Proof.
  split; [vm_compute; repeat split; discriminate|].
  apply (SimpleFacts.my_alloc_failures_are_told_apart
           10000 16 (Simple.new_world Simple.fresh_device)
           (Simple.new_world Simple.unready_device));
    vm_compute; discriminate.
Defined.

Example out_of_memory_message :
  (Simple.my_alloc 10000 (Simple.new_world Simple.fresh_device)).1
  = Raise (RuntimeError "Unexpected return code 2 from cudaMalloc").
Proof. by vm_compute. Qed.

Lemma create_fractal_frame_witness :
  (0 <= 1 < 2 /\ 0 <= 1 < 2 /\ ~ (1 < Z.of_nat (1 * 1) /\ 1 < Z.of_nat (1 * 1)))
  /\ Mandel.getitem
       (Mandel.create_fractal (F := float)
          {| Mandel.gx := 1; Mandel.gy := 1; Mandel.bx := 1; Mandel.by_ := 1 |}
          (-2)%float 1%float (-1)%float 1%float
          {| Mandel.shape0 := 2; Mandel.shape1 := 2; Mandel.data := [7; 7; 7; 7] |} 20)
       1 1
     = Mandel.getitem
         {| Mandel.shape0 := 2; Mandel.shape1 := 2; Mandel.data := [7; 7; 7; 7] |} 1 1.
Proof.
  assert (0 <= 1 < 2) as Hr by lia.
  assert (~ (1 < Z.of_nat (1 * 1) /\ 1 < Z.of_nat (1 * 1))) as Hout by (cbn; lia).
  split; [by repeat split|].
  exact (proj1 (proj2 (FractalFacts.create_fractal_frame
    (F := float) (-2)%float 1%float (-1)%float 1%float 20
    {| Mandel.gx := 1; Mandel.gy := 1; Mandel.bx := 1; Mandel.by_ := 1 |}
    {| Mandel.shape0 := 2; Mandel.shape1 := 2; Mandel.data := [7; 7; 7; 7] |}))
    1 1 Hr Hr Hout).
Defined.

Example create_fractal_small :
  Mandel.data
    (Mandel.create_fractal (F := float)
       {| Mandel.gx := 2; Mandel.gy := 1; Mandel.bx := 2; Mandel.by_ := 2 |}
       (-2)%float 1%float (-1)%float 1%float
       {| Mandel.shape0 := 2; Mandel.shape1 := 3; Mandel.data := [7; 7; 7; 7; 7; 7] |} 20)
  = [0; 2; 255; 0; 255; 255].
Proof. by vm_compute. Qed.

End Scenarios.

(** * Further properties *)

(** ** More on the pool-backed manager *)

Module CuPyTraceFacts.
Import CuPy CuPyTrace.

Section Facts.
Context {P : Type} `{MemoryPool P}.
Implicit Types (w : world P) (l : list MemoryPointer) (mp : MemoryPointer).

(** *** Only [memalloc] allocates *)

Lemma mallocs_app c1 c2 : mallocs (c1 ++ c2) = mallocs c1 ++ mallocs c2.
Proof. apply omap_app. Qed.

Lemma step_mallocs o w :
  mallocs (pool_calls (step o w).2)
  = mallocs (pool_calls w)
    ++ match o, _mp (self w) with
       | OpMemalloc n, Some _ => [n]
       | _, _ => []
       end
  /\ _mp (self (step o w).2)
     = match o with OpInitialize => Some DefaultMemoryPool | _ => _mp (self w) end.
Proof.
  destruct o as [| |n|k| | |]; cbn [step].
  - cbn. by rewrite app_nil_r.
  - unfold reset, mallocs. destruct (_mp (self w)) as [[]|] eqn:Hmp; cbn;
      rewrite ?omap_app, ?app_nil_r; cbn; rewrite ?app_nil_r, ?Hmp; done.
  - destruct (_mp (self w)) as [[]|] eqn:Hmp.
    2:{ rewrite (CuPyFacts.memalloc_uninitialized n w Hmp). cbn.
        by rewrite app_nil_r. }
    destruct (malloc n (pool w)) as [[cp|e] p'] eqn:Hm.
    + destruct (CuPyFacts.memalloc_ok n w cp p' Hmp Hm)
        as (mp & w' & Heq & _ & _ & _ & _ & Hmp' & _ & Hcalls).
      rewrite Heq. cbn [fst snd]. rewrite Hcalls, Hmp', Hmp, mallocs_app.
      split; [|done]. f_equal. by destruct (_allocations (self w) !! ptr cp).
    + destruct (CuPyFacts.memalloc_raise n w e p' Hmp Hm)
        as (w' & Heq & _ & Hself & Hcalls).
      rewrite Heq. cbn [fst snd]. rewrite Hcalls, Hself, Hmp, mallocs_app. done.
  - unfold del. destruct (pointers w !! k) as [mp|]; [|by rewrite app_nil_r].
    destruct (alive mp); [|by rewrite app_nil_r].
    set (w1 := set_pointers _ w).
    change (pool_calls w) with (pool_calls w1).
    change (_mp (self w)) with (_mp (self w1)).
    destruct (_allocations (self w1) !! fin_ptr (_finalizer mp)) as [r|] eqn:Hr.
    + destruct (CuPyFacts.run_finalizer_tracked _ w1 r Hr)
        as (w' & Heq & _ & _ & Hmp' & _ & Hcalls).
      rewrite Heq. cbn [fst snd]. rewrite Hcalls, Hmp', mallocs_app. cbn.
      by rewrite app_nil_r.
    + destruct (CuPyFacts.run_finalizer_untracked _ w1 Hr)
        as (w' & Heq & _ & Hself & Hcalls).
      rewrite Heq. cbn [fst snd]. by rewrite Hcalls, Hself, app_nil_r.
  - unfold get_memory_info, mallocs. destruct (_mp (self w)) as [[]|] eqn:Hmp; cbn;
      rewrite ?omap_app, ?app_nil_r; cbn; rewrite ?app_nil_r, ?Hmp; done.
  - cbn. by rewrite app_nil_r.
  - cbn. by rewrite app_nil_r.
Qed.

(** X1: the pool's [malloc] is called exactly once for every [memalloc] made
    on a manager that has its pool, with the size asked for and in the
    order of the calls; [initialize], [reset], [get_memory_info],
    [defer_cleanup] and the finalizers never allocate. *)
Theorem only_memalloc_allocates (ops : list op) (w : world P) :
  mallocs (pool_calls (run ops w).2)
  = mallocs (pool_calls w) ++ requested (bool_decide (is_Some (_mp (self w)))) ops.
Proof.
  revert w. induction ops as [|o ops IH]; intros w.
  - cbn. by rewrite app_nil_r.
  - rewrite CuPyFacts.run_cons. cbn [snd]. rewrite IH.
    destruct (step_mallocs o w) as [-> ->]. rewrite <- app_assoc. f_equal.
    destruct o as [| |n|k| | |]; cbn [requested]; try done.
    destruct (_mp (self w)) as [[]|]; done.
Qed.


(** *** The output *)

Lemma memalloc_log n w :
  match memalloc n w with
  | (Ok mp, w') =>
      pointers w' = pointers w ++ [mp]
      /\ alive mp = true /\ memsize mp = n
      /\ fin_nbytes (_finalizer mp) = n
      /\ fin_logging (_finalizer mp) = _logging (self w)
      /\ _logging (self w') = _logging (self w)
      /\ stdout w'
         = stdout w ++ (if _logging (self w)
                        then [Allocated n (fin_ptr (_finalizer mp))] else [])
  | (Raise e, w') =>
      pointers w' = pointers w
      /\ _logging (self w') = _logging (self w)
      /\ stdout w' = stdout w
  end.
Proof.
  unfold memalloc. destruct (_mp (self w)) as [[]|]; [|done]. cbn.
  destruct (malloc n (pool w)) as [[cp|e] p']; [|done].
  unfold setitem.
  destruct (_logging (self w)) eqn:Hl; cbn;
    destruct (_allocations (self w) !! ptr cp); cbn; rewrite ?Hl, ?app_nil_r; done.
Qed.

Lemma run_finalizer_log f w :
  pointers (run_finalizer f w).2 = pointers w
  /\ _logging (self (run_finalizer f w).2) = _logging (self w)
  /\ stdout (run_finalizer f w).2
     = stdout w ++ (if fin_logging f then [Freeing (fin_nbytes f) (fin_ptr f)] else []).
Proof.
  unfold run_finalizer.
  destruct (fin_logging f); cbn;
    destruct (_allocations (self w) !! fin_ptr f); cbn; rewrite ?app_nil_r; done.
Qed.

Lemma filter_dead_kill l k mp :
  l !! k = Some mp -> alive mp = true ->
  filter (fun mp => alive mp = false) (<[k := kill mp]> l)
  ≡ₚ kill mp :: filter (fun mp => alive mp = false) l.
Proof.
  intros Hk Ha. destruct (CuPyFacts.kill_split l k mp Hk Ha) as (l1 & l2 & Hl & Hl').
  rewrite Hl', Hl at 1. rewrite !filter_app, filter_cons_True by done.
  rewrite (filter_cons_False _ mp) by by rewrite Ha.
  by rewrite Permutation_middle.
Qed.

Lemma lines_length (out : list log_line) :
  length out = (length (allocated_lines out) + length (freeing_lines out))%nat.
Proof.
  unfold allocated_lines, freeing_lines.
  induction out as [|[n p|n p] out IH]; cbn; [done | |]; lia.
Qed.

Lemma logged_init LOGGING (p0 : P) : logged LOGGING (__init__ LOGGING p0).
Proof. split; cbn; try done. by destruct LOGGING. by destruct LOGGING. Qed.

Lemma logged_same LOGGING w w' :
  _logging (self w') = _logging (self w) ->
  pointers w' = pointers w ->
  stdout w' = stdout w ->
  logged LOGGING w -> logged LOGGING w'.
Proof. intros Hl Hps Hout [? ? ? ?]. split; rewrite ?Hl, ?Hps, ?Hout; done. Qed.

Lemma logged_step LOGGING o w : logged LOGGING w -> logged LOGGING (step o w).2.
Proof.
  intros Hlog. destruct o as [| |n|k| | |]; cbn [step].
  - by apply (logged_same LOGGING w).
  - apply (logged_same LOGGING w); [| | |done];
      unfold reset; by destruct (_mp (self w)) as [[]|].
  - pose proof (memalloc_log n w) as Hm.
    destruct (memalloc n w) as [[mp|e] w']; cbn [fst snd].
    + destruct Hm as (Hps & Ha & Hsz & Hnb & Hfl & Hl & Hout).
      destruct Hlog as [Hflag Hcl Hal Hfr]. rewrite Hflag in *.
      split.
      * by rewrite Hl.
      * rewrite Hps. apply Forall_app. split; [done|].
        apply Forall_singleton. by rewrite Hnb, Hsz.
      * rewrite Hout, Hps. unfold allocated_lines in *. rewrite omap_app, Hal.
        destruct LOGGING; cbn; [|done]. rewrite fmap_app. cbn.
        unfold handed_out at 3. by rewrite Hsz.
      * rewrite Hout, Hps. unfold freeing_lines in *. rewrite omap_app.
        rewrite filter_app, filter_cons_False, filter_nil by by rewrite Ha.
        rewrite app_nil_r.
        assert (omap (fun ln => match ln with Freeing n0 p => Some (n0, p) | _ => None end)
                  (if LOGGING then [Allocated n (fin_ptr (_finalizer mp))] else [])
                = []) as -> by by destruct LOGGING.
        by rewrite app_nil_r.
    + destruct Hm as (Hps & Hl & Hout). by apply (logged_same LOGGING w).
  - unfold del. destruct (pointers w !! k) as [mp|] eqn:Hk; [|done].
    destruct (alive mp) eqn:Ha; [|done].
    set (w1 := set_pointers (<[k:=kill mp]> (pointers w)) w).
    destruct (run_finalizer_log (_finalizer mp) w1) as (Hps & Hl & Hout).
    destruct Hlog as [Hflag Hcl Hal Hfr].
    pose proof (Forall_lookup_1 _ _ _ _ Hcl Hk) as [Hfl Hnb].
    split.
    + by rewrite Hl.
    + rewrite Hps. cbn. apply Forall_insert; done.
    + rewrite Hout. cbn. unfold allocated_lines in *. rewrite omap_app, Hal.
      assert (omap (fun ln => match ln with Allocated n0 p => Some (n0, p) | _ => None end)
                (if fin_logging (_finalizer mp)
                 then [Freeing (fin_nbytes (_finalizer mp)) (fin_ptr (_finalizer mp))]
                 else [])
              = []) as -> by by destruct (fin_logging (_finalizer mp)).
      rewrite app_nil_r, Hps. cbn. destruct LOGGING; [|done].
      rewrite list_fmap_insert. symmetry. apply list_insert_id.
      rewrite list_lookup_fmap, Hk. done.
    + rewrite Hout, Hps. cbn. unfold freeing_lines in *. rewrite omap_app, Hfr, Hfl.
      destruct LOGGING; cbn; [|done].
      rewrite (filter_dead_kill _ _ _ Hk Ha). cbn.
      unfold handed_out at 3. cbn. rewrite Hnb.
      symmetry. apply Permutation_cons_append.
  - apply (logged_same LOGGING w); [| | |done];
      unfold get_memory_info; by destruct (_mp (self w)) as [[]|].
  - by apply (logged_same LOGGING w).
  - by apply (logged_same LOGGING w).
Qed.

Lemma logged_run LOGGING ops w : logged LOGGING w -> logged LOGGING (run ops w).2.
Proof.
  revert w. induction ops as [|o ops IH]; intros w Hlog; [done|].
  rewrite CuPyFacts.run_cons. cbn [snd]. by apply IH, logged_step.
Qed.

(** X2: with [LOGGING] set, the output has one ["Allocated"] line for every
    pointer handed out, with its size and address and in the order of the
    allocations, and one ["Freeing"] line, with the same size and address,
    for every pointer whose finalizer has been called; with [LOGGING]
    unset nothing is ever printed. *)
Theorem output_accounts_for_every_pointer (LOGGING : bool) (p0 : P) (ops : list op) :
  let w := (run ops (__init__ LOGGING p0)).2 in
  if LOGGING
  then allocated_lines (stdout w) = handed_out <$> pointers w
       /\ freeing_lines (stdout w)
          ≡ₚ handed_out <$> filter (fun mp => alive mp = false) (pointers w)
       /\ length (stdout w) = (allocations_made w + finalizers_run w)%nat
  else stdout w = [].
Proof.
  intros w.
  destruct (logged_run LOGGING ops _ (logged_init LOGGING p0)) as [_ _ Hal Hfr].
  fold w in Hal, Hfr.
  pose proof (lines_length (stdout w)) as Hlen. rewrite Hal, Hfr in Hlen.
  destruct LOGGING.
  - repeat split; [done | done |].
    rewrite Hlen, !length_fmap. unfold allocations_made, finalizers_run,
      finalized_addresses, dead. by rewrite !length_fmap.
  - by apply length_zero_iff_nil.
Qed.


(** *** Nothing is left behind *)

Lemma live_nil_dead l : live l = [] -> dead l = fin_ptr <$> (_finalizer <$> l).
Proof.
  induction l as [|mp l IH]; [done|]. intros Hlive.
  destruct (alive mp) eqn:Ha.
  - by rewrite (CuPyFacts.live_cons_alive _ _ Ha) in Hlive.
  - rewrite (CuPyFacts.live_cons_dead _ _ Ha) in Hlive.
    rewrite (CuPyFacts.dead_cons_dead _ _ Ha), IH by done. done.
Qed.

(** X3: once every pointer handed out has been dropped, the allocation
    table is empty and the pool has got back every address it handed
    out. *)
Theorem nothing_leaks_once_all_dropped (LOGGING : bool) (p0 : P) (ops : list op) :
  fresh_run ops (__init__ LOGGING p0) ->
  let w := (run ops (__init__ LOGGING p0)).2 in
  finalizers_run w = allocations_made w ->
  _allocations (self w) = ∅
  /\ frees w ≡ₚ fin_ptr <$> (_finalizer <$> pointers w).
Proof.
  intros Hfresh w Hall.
  destruct (CuPyFacts.tracked_run ops _ (CuPyFacts.tracked_init LOGGING p0) Hfresh)
    as [[Hnd Hdom Hkey Hfr] _].
  fold w in Hnd, Hdom, Hkey, Hfr.
  pose proof (CuPyFacts.live_dead_length (pointers w)) as Hlen.
  unfold finalizers_run, finalized_addresses, allocations_made in Hall.
  assert (live (pointers w) = []) as Hlive by (apply length_zero_iff_nil; lia).
  split.
  - apply map_empty. intros p. apply eq_None_not_Some. rewrite Hdom, Hlive.
    apply not_elem_of_nil.
  - by rewrite Hfr, (live_nil_dead _ Hlive).
Qed.

(** X4: an allocation at a fresh address followed by its own finalizer
    leaves the table as it was, and the pool sees the [malloc] and then the
    return of that address. *)
Theorem memalloc_then_finalizer_restores_table (n : Z) (w w1 : world P) (mp : MemoryPointer) :
  memalloc n w = (Ok mp, w1) ->
  _allocations (self w) !! fin_ptr (_finalizer mp) = None ->
  (run_finalizer (_finalizer mp) w1).1 = Ok tt
  /\ _allocations (self (run_finalizer (_finalizer mp) w1).2) = _allocations (self w)
  /\ pool_calls (run_finalizer (_finalizer mp) w1).2
     = pool_calls w ++ [CallMalloc n; CallFree (fin_ptr (_finalizer mp))].
Proof.
  intros Heq Hfresh.
  destruct (_mp (self w)) as [[]|] eqn:Hmp.
  2:{ by rewrite (CuPyFacts.memalloc_uninitialized n w Hmp) in Heq. }
  destruct (malloc n (pool w)) as [[cp|e] p'] eqn:Hm.
  2:{ destruct (CuPyFacts.memalloc_raise n w e p' Hmp Hm) as (w' & Heq' & _).
      by rewrite Heq' in Heq. }
  destruct (CuPyFacts.memalloc_ok n w cp p' Hmp Hm)
    as (mp' & w' & Heq' & _ & Hptr & _ & Htab & _ & _ & Hcalls).
  rewrite Heq' in Heq. injection Heq as -> ->.
  rewrite Hptr in *. rewrite Hfresh in Hcalls.
  assert (_allocations (self w1) !! fin_ptr (_finalizer mp) = Some cp) as Hin.
  { by rewrite Hptr, Htab, lookup_insert_eq. }
  destruct (CuPyFacts.run_finalizer_tracked _ w1 cp Hin)
    as (w2 & Heq2 & _ & Htab2 & _ & _ & Hcalls2).
  rewrite Heq2. cbn [fst snd]. rewrite Htab2, Hcalls2, Hcalls, Hptr, Htab.
  rewrite delete_insert_id by done. by rewrite <- app_assoc.
Qed.


(** *** The order of the finalizers *)

Lemma del_pointers_lookup k w i :
  pointers (del k w).2 !! i
  = (fun mp => if decide (i = k) then kill mp else mp) <$> pointers w !! i.
Proof.
  unfold del. destruct (pointers w !! k) as [mp|] eqn:Hk.
  - destruct (alive mp) eqn:Ha.
    + destruct (run_finalizer_log (_finalizer mp)
                  (set_pointers (<[k:=kill mp]> (pointers w)) w)) as (-> & _).
      cbn [pointers set_pointers]. destruct (decide (i = k)) as [->|Hne].
      * rewrite list_lookup_insert_eq by by eapply lookup_lt_Some. by rewrite Hk.
      * rewrite list_lookup_insert_ne by done. by destruct (pointers w !! i).
    + cbn [snd]. destruct (decide (i = k)) as [->|Hne].
      * rewrite Hk. cbn. f_equal. destruct mp. cbn in Ha. by subst.
      * by destruct (pointers w !! i).
  - cbn [snd]. destruct (decide (i = k)) as [->|Hne].
    + by rewrite Hk.
    + by destruct (pointers w !! i).
Qed.

Lemma drops_pointers_lookup ks w i :
  pointers (run (OpDrop <$> ks) w).2 !! i
  = (fun mp => if decide (i ∈ ks) then kill mp else mp) <$> pointers w !! i.
Proof.
  revert w. induction ks as [|k ks IH]; intros w.
  - cbn. destruct (pointers w !! i); [|done]. cbn.
    rewrite decide_False; [done | apply not_elem_of_nil].
  - rewrite fmap_cons, CuPyFacts.run_cons. cbn [snd step]. rewrite IH, del_pointers_lookup.
    destruct (pointers w !! i) as [mp|]; [|done]. cbn. f_equal.
    destruct (decide (i = k)) as [->|Hne].
    + rewrite (decide_True (P := k ∈ k :: ks)) by left.
      by destruct (decide (k ∈ ks)).
    + destruct (decide (i ∈ ks)) as [Hin|Hnin].
      * rewrite decide_True; [done | by right].
      * rewrite decide_False; [done|]. by intros [?|?]%elem_of_cons.
Qed.

Lemma tracked_drops ks w : CuPy.tracked w -> CuPy.tracked (run (OpDrop <$> ks) w).2.
Proof.
  revert w. induction ks as [|k ks IH]; intros w Htr; [done|].
  rewrite fmap_cons, CuPyFacts.run_cons. cbn [snd step].
  apply IH. by apply CuPyFacts.tracked_del.
Qed.

Lemma tracked_table_eq w w' :
  CuPy.tracked w -> CuPy.tracked w' -> pointers w = pointers w' ->
  _allocations (self w) = _allocations (self w').
Proof.
  intros [_ Hdom Hkey _] [_ Hdom' Hkey' _] Hps.
  apply map_eq. intros p.
  destruct (_allocations (self w) !! p) as [r|] eqn:Hr.
  - assert (is_Some (_allocations (self w') !! p)) as [r' Hr'].
    { apply Hdom'. rewrite <- Hps. apply Hdom. eauto. }
    rewrite Hr'. f_equal. destruct r as [pr], r' as [pr'].
    apply Hkey in Hr. apply Hkey' in Hr'. cbn in *. congruence.
  - symmetry. apply eq_None_not_Some. rewrite Hdom', <- Hps, <- Hdom, Hr.
    by intros [? ?].
Qed.

(** X5: finalizers are independent: dropping the same pointers in another
    order leaves the same allocation table and the same pointers, and the
    pool gets the same addresses back. *)
Theorem drops_in_any_order (LOGGING : bool) (p0 : P) (ops : list op) (ks ks' : list nat) :
  fresh_run ops (__init__ LOGGING p0) ->
  ks ≡ₚ ks' ->
  let w := (run ops (__init__ LOGGING p0)).2 in
  let w1 := (run (OpDrop <$> ks) w).2 in
  let w2 := (run (OpDrop <$> ks') w).2 in
  _allocations (self w1) = _allocations (self w2)
  /\ pointers w1 = pointers w2
  /\ frees w1 ≡ₚ frees w2.
Proof.
  intros Hfresh Hperm w w1 w2.
  destruct (CuPyFacts.tracked_run ops _ (CuPyFacts.tracked_init LOGGING p0) Hfresh)
    as [Htr _].
  fold w in Htr.
  pose proof (tracked_drops ks w Htr) as Htr1. fold w1 in Htr1.
  pose proof (tracked_drops ks' w Htr) as Htr2. fold w2 in Htr2.
  assert (pointers w1 = pointers w2) as Hps.
  { apply list_eq. intros i. unfold w1, w2. rewrite !drops_pointers_lookup.
    destruct (pointers w !! i) as [mp|]; [|done]. cbn. f_equal.
    destruct (decide (i ∈ ks)) as [Hin|Hnin].
    - rewrite decide_True; [done | by rewrite <- Hperm].
    - rewrite decide_False; [done | by rewrite <- Hperm]. }
  split; [by apply tracked_table_eq|]. split; [done|].
  by rewrite (tracked_frees _ Htr1), (tracked_frees _ Htr2), Hps.
Qed.

End Facts.
End CuPyTraceFacts.

Module SimpleMoreFacts.
Import Simple.

Section Facts.
Context {D : Type} `{CudaRuntime D}.

(** X6: on the direct manager, the finalizer of a pointer returned by
    [memalloc] passes to [cudaFree] the very address that [cudaMalloc]
    wrote, right after the [cudaMalloc] call, and does not raise. *)
Theorem finalizer_frees_the_address_allocated (size : Z) (w w1 : world D)
    (mp : MemoryPointer) :
  memalloc size w = (Ok mp, w1) ->
  0 <= device_pointer mp < 2 ^ 64 ->
  device_pointer mp = (cudaMalloc (c_size_t size) (driver w)).1.2
  /\ (run_finalizer (_finalizer mp) w1).1 = Ok tt
  /\ driver_calls (run_finalizer (_finalizer mp) w1).2
     = driver_calls w
       ++ [CallCudaMalloc (c_size_t size); CallCudaFree (device_pointer mp)].
Proof.
  intros Heq Hrange.
  destruct (SimpleFacts.memalloc_spec size w) as [Hres Hcalls].
  rewrite Heq in Hres, Hcalls. cbn [fst snd] in Hres, Hcalls.
  case_decide as Hret; [|done]. injection Hres as ->.
  cbn [device_pointer _finalizer make_finalizer fin_ptr] in *.
  unfold run_finalizer. cbn [fin_ptr make_finalizer _finalizer].
  destruct (SimpleFacts.my_free_never_raises
              (cudaMalloc (c_size_t size) (driver w)).1.2 w1) as [Hok Hcalls2].
  rewrite Hok, Hcalls2, Hcalls, <- app_assoc.
  set (s := c_size_t size) in *. unfold c_size_t. by rewrite Z.mod_small.
Qed.

End Facts.
End SimpleMoreFacts.

(** ** More on the Mandelbrot kernel *)

Module MandelScriptFacts.
Import Mandel MandelScript.

Section Facts.
Context {F : Type} `{Float64 F}.
Variables (min_x max_x min_y max_y : F) (iters : Z).

Local Abbreviation thread := (create_fractal_thread min_x max_x min_y max_y iters).
Local Abbreviation threads_run := (run_threads min_x max_x min_y max_y iters).
Local Abbreviation colour := (pixel min_x max_x min_y max_y iters).

Lemma thread_in_bounds x y image :
  x < shape1 image -> y < shape0 image ->
  thread (x, y) image = setitem image y x (mandel
    (f_add min_x (f_mul (f_of_int x)
       (f_div (f_sub max_x min_x) (f_of_int (shape1 image)))))
    (f_add min_y (f_mul (f_of_int y)
       (f_div (f_sub max_y min_y) (f_of_int (shape0 image))))) iters).
Proof.
  intros Hx Hy. unfold create_fractal_thread. by rewrite decide_True.
Qed.

Lemma thread_length xy image : length (data (thread xy image)) = length (data image).
Proof.
  destruct xy as [x y]. unfold create_fractal_thread.
  case_decide; [|done]. cbn. apply length_insert.
Qed.

Lemma thread_well_shaped xy image : well_shaped image -> well_shaped (thread xy image).
Proof.
  intros (H0 & H1 & Hlen). unfold well_shaped.
  destruct (FractalFacts.thread_shape min_x max_x min_y max_y iters xy image) as [-> ->].
  by rewrite thread_length.
Qed.

Lemma colour_shape image image' x y :
  shape0 image' = shape0 image -> shape1 image' = shape1 image ->
  colour image' x y = colour image x y.
Proof. intros E0 E1. unfold pixel. by rewrite E0, E1. Qed.

Lemma flat_index_lt image x y :
  well_shaped image -> 0 <= x < shape1 image -> 0 <= y < shape0 image ->
  (Z.to_nat (y * shape1 image + x) < length (data image))%nat.
Proof. intros (H0 & H1 & ->) Hx Hy. apply Z2Nat.inj_lt; nia. Qed.

Lemma thread_writes x y image :
  well_shaped image -> 0 <= x < shape1 image -> 0 <= y < shape0 image ->
  getitem (thread (x, y) image) y x = Some (colour image x y).
Proof.
  intros Hws Hx Hy. rewrite thread_in_bounds by lia.
  unfold getitem, setitem, pixel. cbn [data shape1].
  apply list_lookup_insert_eq. by apply flat_index_lt.
Qed.

Lemma run_threads_writes threads image x y :
  Forall nonneg threads -> well_shaped image ->
  0 <= x < shape1 image -> 0 <= y < shape0 image ->
  (x, y) ∈ threads ->
  getitem (threads_run threads image) y x = Some (colour image x y).
Proof.
  revert image. induction threads as [|xy threads IH]; intros image Hnn Hws Hx Hy Hin.
  { by apply elem_of_nil in Hin. }
  apply Forall_cons in Hnn as [Hxy Hnn].
  destruct (FractalFacts.thread_shape min_x max_x min_y max_y iters xy image) as [E0 E1].
  unfold run_threads. cbn [foldl]. fold (threads_run threads (thread xy image)).
  destruct (decide ((x, y) ∈ threads)) as [Hrest|Hrest].
  - rewrite IH; [| done | by apply thread_well_shaped | by rewrite E1 | by rewrite E0 | done].
    f_equal. by apply colour_shape.
  - apply elem_of_cons in Hin as [<-|Hin]; [|done].
    rewrite FractalFacts.run_threads_frame; [| done | lia | by rewrite E1 | done].
    by apply thread_writes.
Qed.

Lemma create_fractal_writes (cfg : launch) (image : ndarray) (x y : Z) :
  well_shaped image ->
  0 <= x < shape1 image -> 0 <= y < shape0 image ->
  x < Z.of_nat (gx cfg * bx cfg) -> y < Z.of_nat (gy cfg * by_ cfg) ->
  getitem (create_fractal cfg min_x max_x min_y max_y image iters) y x
  = Some (pixel min_x max_x min_y max_y iters image x y).
Proof.
  intros Hws Hx Hy Hgx Hgy. unfold create_fractal.
  apply run_threads_writes; [apply FractalFacts.grid_nonneg | done..|].
  apply FractalFacts.elem_of_grid. lia.
Qed.

(** X7: after the launch, on an image whose data has the size of its shape,
    every element at the coordinates of a launched thread holds the byte
    [uint8 (mandel real imag iters)] of its own point. *)
Theorem create_fractal_paints_its_threads (cfg : launch) (image : ndarray) (x y : Z) :
  well_shaped image ->
  0 <= x < shape1 image -> 0 <= y < shape0 image ->
  x < Z.of_nat (gx cfg * bx cfg) -> y < Z.of_nat (gy cfg * by_ cfg) ->
  getitem (create_fractal cfg min_x max_x min_y max_y image iters) y x
  = Some (pixel min_x max_x min_y max_y iters image x y).
Proof. apply create_fractal_writes. Qed.

(** *** The grid of the script covers the picture *)

Lemma nblocks_cover extent nthreads i :
  0 < nthreads -> 0 <= i < extent ->
  i < Z.of_nat (Z.to_nat (nblocks extent nthreads) * Z.to_nat nthreads).
Proof.
  intros Hn Hi. unfold nblocks.
  assert (0 <= extent / nthreads) by (apply Z.div_pos; lia).
  rewrite Nat2Z.inj_mul, !Z2Nat.id by lia.
  pose proof (Z.mul_succ_div_gt extent nthreads Hn). lia.
Qed.

(** X8: with [extent // nthreads + 1] blocks of [nthreads] threads in each
    direction, as the script launches the kernel, no element is left out:
    the whole image holds the bytes of its points. *)
Theorem script_launch_paints_every_pixel (nthreads : Z) (image : ndarray) (x y : Z) :
  0 < nthreads -> well_shaped image ->
  0 <= x < shape1 image -> 0 <= y < shape0 image ->
  getitem (create_fractal (script_launch (shape1 image) (shape0 image) nthreads)
             min_x max_x min_y max_y image iters) y x
  = Some (pixel min_x max_x min_y max_y iters image x y).
Proof.
  intros Hn Hws Hx Hy. apply create_fractal_writes; try done.
  - by apply nblocks_cover.
  - by apply nblocks_cover.
Qed.


(** *** The order of the threads *)

Lemma thread_commute a b image :
  nonneg a -> nonneg b -> thread a (thread b image) = thread b (thread a image).
Proof.
  destruct a as [xa ya], b as [xb yb]. intros [Hxa Hya] [Hxb Hyb]. cbn in Hxa, Hya, Hxb, Hyb.
  destruct (FractalFacts.thread_shape min_x max_x min_y max_y iters (xa, ya) image)
    as [Ea0 Ea1].
  destruct (FractalFacts.thread_shape min_x max_x min_y max_y iters (xb, yb) image)
    as [Eb0 Eb1].
  destruct (decide (xa < shape1 image /\ ya < shape0 image)) as [Ha|Ha].
  2:{ rewrite (FractalFacts.thread_out_of_bounds _ _ _ _ _ xa ya image) by lia.
      apply FractalFacts.thread_out_of_bounds. rewrite Eb0, Eb1. lia. }
  destruct (decide (xb < shape1 image /\ yb < shape0 image)) as [Hb|Hb].
  2:{ rewrite (FractalFacts.thread_out_of_bounds _ _ _ _ _ xb yb image) by lia.
      symmetry. apply FractalFacts.thread_out_of_bounds. rewrite Ea0, Ea1. lia. }
  rewrite (thread_in_bounds xa ya (thread (xb, yb) image)) by (rewrite ?Eb0, ?Eb1; lia).
  rewrite (thread_in_bounds xb yb (thread (xa, ya) image)) by (rewrite ?Ea0, ?Ea1; lia).
  rewrite Ea0, Ea1, Eb0, Eb1.
  rewrite (thread_in_bounds xa ya image), (thread_in_bounds xb yb image) by lia.
  unfold setitem. cbn [shape0 shape1 data]. f_equal.
  destruct (decide (Z.to_nat (ya * shape1 image + xa) = Z.to_nat (yb * shape1 image + xb)))
    as [Heq|Hne].
  - apply FractalFacts.flat_index_inj in Heq as [-> ->]; [done | lia..].
  - by apply list_insert_insert_ne.
Qed.

Lemma run_threads_permutation threads threads' image :
  threads ≡ₚ threads' -> Forall nonneg threads ->
  threads_run threads image = threads_run threads' image.
Proof.
  intros Hperm. revert image.
  induction Hperm as [|a l l' Hperm IH|a b l|l l' l'' Hp1 IH1 Hp2 IH2];
    intros image Hnn; unfold run_threads in *; cbn [foldl].
  - done.
  - apply Forall_cons in Hnn as [_ Hnn]. by apply IH.
  - apply Forall_cons in Hnn as [Hb Hnn]. apply Forall_cons in Hnn as [Ha _].
    by rewrite thread_commute.
  - rewrite IH1 by done. apply IH2. by rewrite <- Hp1.
Qed.

(** X9: the picture does not depend on the order in which the threads of a
    launch run: any two orders of the same threads give the same image. *)
Theorem create_fractal_any_thread_order (cfg : launch) (schedule : list (Z * Z))
    (image : ndarray) :
  schedule ≡ₚ grid cfg ->
  run_threads min_x max_x min_y max_y iters schedule image
  = create_fractal cfg min_x max_x min_y max_y image iters.
Proof.
  intros Hperm. unfold create_fractal. apply run_threads_permutation; [done|].
  rewrite Hperm. apply FractalFacts.grid_nonneg.
Qed.

(** *** The image stays an array of bytes *)

Lemma thread_bytes xy image :
  Forall (fun v => 0 <= v < 256) (data image) ->
  Forall (fun v => 0 <= v < 256) (data (thread xy image)).
Proof.
  intros Hb. destruct xy as [x y]. unfold create_fractal_thread.
  case_decide; [|done]. cbn [data setitem].
  apply Forall_insert; [done|]. unfold uint8. apply Z.mod_pos_bound. lia.
Qed.

(** X10: a launch keeps the image an array of bytes of the same size: the
    shape and the length of the data are unchanged and every element is in
    [0, 256), the colour being stored modulo 256. *)
Theorem create_fractal_keeps_bytes (cfg : launch) (image : ndarray) :
  Forall (fun v => 0 <= v < 256) (data image) ->
  Forall (fun v => 0 <= v < 256)
         (data (create_fractal cfg min_x max_x min_y max_y image iters))
  /\ length (data (create_fractal cfg min_x max_x min_y max_y image iters))
     = length (data image).
Proof.
  unfold create_fractal, run_threads. generalize (grid cfg). intros threads.
  revert image. induction threads as [|xy threads IH]; intros image Hb; [done|].
  cbn [foldl]. destruct (IH (thread xy image) (thread_bytes xy image Hb)) as [Hb' Hlen].
  split; [done|]. by rewrite Hlen, thread_length.
Qed.

End Facts.

Section Budget.
Context {F : Type} `{Float64 F}.

Lemma mandel_cases (x y : F) (n : Z) :
  (exists i, 0 <= i < n /\ escapes_at x y i
             /\ (forall j, 0 <= j < i -> ~ escapes_at x y j)
             /\ mandel x y n = i)
  \/ ((forall i, 0 <= i < n -> ~ escapes_at x y i) /\ mandel x y n = 255).
Proof.
  unfold mandel, escapes_at.
  set (c := {| real := x; imag := y |}).
  change {| real := f_of_int 0; imag := f_of_int 0 |} with (iterate c 0).
  destruct (MandelFacts.mandel_loop_first_escape c (Z.to_nat n) 0 0)
    as [(j & Hj & He & Hmin & Hres) | [Hnone Hres]].
  - left. exists (Z.of_nat j). rewrite Nat2Z.id.
    repeat split; [lia | lia | exact He | | rewrite Hres; lia].
    intros j' Hj'. specialize (Hmin (Z.to_nat j')).
    cbn [Nat.add] in Hmin. rewrite Hmin by lia. discriminate.
  - right. split; [|exact Hres].
    intros i Hi. specialize (Hnone (Z.to_nat i)).
    cbn [Nat.add] in Hnone. rewrite Hnone by lia. discriminate.
Qed.

(** X11: a result other than 255 is final: with a larger [max_iters],
    [mandel] returns the same index. *)
Theorem mandel_result_is_final (x y : F) (n m : Z) :
  n <= m -> mandel x y n <> 255 -> mandel x y m = mandel x y n.
Proof.
  intros Hnm Hne.
  destruct (mandel_cases x y n) as [(i & Hi & He & Hmin & Hres) | [_ Hres]]; [|done].
  rewrite Hres.
  destruct (mandel_cases x y m) as [(i' & Hi' & He' & Hmin' & Hres') | [Hnone _]].
  - rewrite Hres'. destruct (Z.lt_trichotomy i i') as [Hlt|[Heq|Hgt]]; [|done|].
    + exfalso. apply (Hmin' i); [lia | done].
    + exfalso. apply (Hmin i'); [lia | done].
  - exfalso. apply (Hnone i); [lia | done].
Qed.

(** X12: for [max_iters <= 255] the result 255 means exactly that the point
    has not left the disc within [max_iters] updates, and the byte stored
    by the kernel is the result itself as long as [max_iters <= 256]. *)
Theorem mandel_255_means_no_escape (x y : F) (max_iters : Z) :
  (max_iters <= 255 ->
   (mandel x y max_iters = 255 <-> forall i, 0 <= i < max_iters -> ~ escapes_at x y i))
  /\ (max_iters <= 256 -> uint8 (mandel x y max_iters) = mandel x y max_iters).
Proof.
  destruct (mandel_cases x y max_iters) as [(i & Hi & He & Hmin & Hres) | [Hnone Hres]].
  - split.
    + intros Hmax. split; [lia|]. intros Hnone. exfalso. by apply (Hnone i).
    + intros Hmax. unfold uint8. apply Z.mod_small. lia.
  - split; [done|]. intros _. by rewrite Hres.
Qed.

End Budget.

Lemma zeros_well_shaped height width :
  0 <= height -> 0 <= width -> well_shaped (zeros height width).
Proof. intros Hh Hw. unfold well_shaped, zeros. cbn. by rewrite length_replicate. Qed.

(** The script's picture: for every width, height and block size, the
    image that the script computes from [np.zeros] has at every [[y, x]]
    the byte of the point [(-2 + x * 3 / width, -1 + y * 2 / height)] after
    at most 20 updates. *)
Corollary script_picture (width height nthreads x y : Z) :
  0 < nthreads -> 0 <= x < width -> 0 <= y < height ->
  getitem (script width height nthreads) y x
  = Some (pixel (F := float) (-2)%float 1%float (-1)%float 1%float 20
                (zeros height width) x y).
Proof.
  intros Hn Hx Hy. unfold script.
  apply (create_fractal_writes (F := float)); cbn [zeros shape0 shape1]; try done.
  - apply zeros_well_shaped; lia.
  - by apply nblocks_cover.
  - by apply nblocks_cover.
Qed.

End MandelScriptFacts.

(** ** The array interface example *)

Module CAIFacts.
Import CAI.

Section Facts.
Context {V : Type}.
Implicit Types (x : list V) (c : V).

Lemma elem_of_grid1 g b i :
  i ∈ grid1 g b <-> 0 <= i < Z.of_nat (g * b).
Proof.
  unfold grid1. split.
  - intros Hin.
    apply list_elem_of_bind in Hin as (bi & Hin & Hbi).
    apply list_elem_of_bind in Hin as (ti & Hin & Hti).
    apply list_elem_of_singleton in Hin as ->.
    apply elem_of_seq in Hbi, Hti. nia.
  - intros Hi.
    assert (b <> 0)%nat as Hb by nia.
    pose proof (Nat.div_mod (Z.to_nat i) b Hb) as Hd.
    pose proof (Nat.mod_upper_bound (Z.to_nat i) b Hb) as Hm.
    apply list_elem_of_bind. exists (Z.to_nat i / b)%nat. split.
    2:{ apply elem_of_seq. split; [lia|]. cbn.
        apply Nat.Div0.div_lt_upper_bound. lia. }
    apply list_elem_of_bind. exists (Z.to_nat i mod b)%nat. split.
    2:{ apply elem_of_seq. lia. }
    apply list_elem_of_singleton. lia.
Qed.

Lemma initialize_thread_length c i x :
  length (initialize_thread c i x) = length x.
Proof. unfold initialize_thread. case_decide; [apply length_insert | done]. Qed.

Lemma initialize_thread_lookup c i x k :
  0 <= i ->
  initialize_thread c i x !! k
  = if decide (Z.to_nat i = k /\ (k < length x)%nat) then Some c else x !! k.
Proof.
  intros Hi. unfold initialize_thread.
  destruct (decide (i < Z.of_nat (length x))) as [Hlt|Hge].
  - destruct (decide (Z.to_nat i = k)) as [<-|Hne].
    + rewrite list_lookup_insert_eq by lia. rewrite decide_True; [done|]. lia.
    + rewrite list_lookup_insert_ne by done. rewrite decide_False; [done|]. tauto.
  - rewrite decide_False; [done|]. lia.
Qed.

Lemma threads_lookup c threads x k :
  Forall (fun i => 0 <= i) threads ->
  foldl (fun x i => initialize_thread c i x) x threads !! k
  = if decide (Z.of_nat k ∈ threads /\ (k < length x)%nat) then Some c else x !! k.
Proof.
  revert x. induction threads as [|i threads IH]; intros x Hnn.
  { cbn. rewrite decide_False; [done|]. intros [[]%elem_of_nil _]. }
  apply Forall_cons in Hnn as [Hi Hnn]. cbn [foldl].
  rewrite IH, initialize_thread_length, initialize_thread_lookup by done.
  destruct (decide (Z.of_nat k ∈ threads /\ (k < length x)%nat)) as [[Hin Hk]|Hno].
  - rewrite decide_True; [done|]. split; [by right | done].
  - destruct (decide (Z.to_nat i = k /\ (k < length x)%nat)) as [[<- Hk]|Hne].
    + rewrite decide_True; [done|]. split; [|done]. rewrite Z2Nat.id by done. left.
    + rewrite decide_False; [done|]. intros [Hin Hk].
      apply elem_of_cons in Hin as [<-|Hin]; [|tauto].
      apply Hne. split; [lia | done].
Qed.

(** On the list of its elements, [initialize[g, b](x)] sets the elements
    of index below [g * b] to the constant and leaves the others and the
    length as they are. *)
Lemma initialize_sets_the_covered_elements (g b : nat) (c : V) (x : list V) (k : nat) :
  length (initialize g b c x) = length x
  /\ initialize g b c x !! k
     = if decide (k < g * b /\ k < length x)%nat then Some c else x !! k.
Proof.
  unfold initialize. split.
  - generalize (grid1 g b). intros threads. revert x.
    induction threads as [|i threads IH]; intros x; [done|].
    cbn [foldl]. by rewrite IH, initialize_thread_length.
  - rewrite threads_lookup.
    2:{ apply Forall_forall. intros i Hin%elem_of_grid1. lia. }
    destruct (decide (k < g * b /\ k < length x)%nat) as [Hk|Hk].
    + rewrite decide_True; [done|]. rewrite elem_of_grid1. lia.
    + rewrite decide_False; [done|]. rewrite elem_of_grid1. lia.
Qed.

(** X14: launched with at least as many threads as [x] has elements, as
    the script does with [initialize[1, nelems]], the kernel sets every
    element: the array is the constant throughout. *)
Theorem initialize_sets_everything (g b : nat) (c : V) (x : list V) :
  (length x <= g * b)%nat -> initialize g b c x = replicate (length x) c.
Proof.
  intros Hcover. apply list_eq. intros k.
  unfold initialize. rewrite threads_lookup.
  2:{ apply Forall_forall. intros i Hin%elem_of_grid1. lia. }
  destruct (decide (k < length x)%nat) as [Hk|Hk].
  - rewrite decide_True by (rewrite elem_of_grid1; lia).
    symmetry. by apply lookup_replicate_2.
  - rewrite decide_False by lia.
    rewrite lookup_ge_None_2 by lia. symmetry. apply lookup_replicate_None. lia.
Qed.

End Facts.
End CAIFacts.

Module CAIMemoryFacts.
Import CAI CAIMemory.

Section Facts.
Context {V : Type}.
Implicit Types (x : device_array V) (c : V).

Lemma thread_len c i x : len (initialize_thread c i x) = len x.
Proof. unfold initialize_thread. by case_decide. Qed.

Lemma thread_memory_length c i x :
  length (memory (initialize_thread c i x)) = length (memory x).
Proof.
  unfold initialize_thread. case_decide; [|done]. cbn. apply length_insert.
Qed.

Lemma thread_allocated c i x : allocated x -> allocated (initialize_thread c i x).
Proof. unfold allocated. by rewrite thread_len, thread_memory_length. Qed.

Lemma thread_memory_lookup c i x k :
  0 <= i -> allocated x ->
  memory (initialize_thread c i x) !! k
  = if decide (Z.to_nat i = k /\ Z.of_nat k < len x) then Some c else memory x !! k.
Proof.
  intros Hi Hal. unfold allocated in Hal. unfold initialize_thread.
  destruct (decide (i < len x)) as [Hlt|Hge].
  - cbn [memory setitem]. destruct (decide (Z.to_nat i = k)) as [<-|Hne].
    + rewrite list_lookup_insert_eq by lia. rewrite decide_True; [done|]. lia.
    + rewrite list_lookup_insert_ne by done. rewrite decide_False; [done|]. tauto.
  - rewrite decide_False; [done|]. lia.
Qed.

Lemma threads_memory_lookup c threads x k :
  Forall (fun i => 0 <= i) threads -> allocated x ->
  memory (foldl (fun x i => initialize_thread c i x) x threads) !! k
  = if decide (Z.of_nat k ∈ threads /\ Z.of_nat k < len x) then Some c
    else memory x !! k.
Proof.
  revert x. induction threads as [|i threads IH]; intros x Hnn Hal.
  { cbn. rewrite decide_False; [done|]. intros [[]%elem_of_nil _]. }
  apply Forall_cons in Hnn as [Hi Hnn]. cbn [foldl].
  rewrite IH, thread_len, thread_memory_lookup by (done || by apply thread_allocated).
  destruct (decide (Z.of_nat k ∈ threads /\ Z.of_nat k < len x)) as [[Hin Hk]|Hno].
  - rewrite decide_True; [done|]. split; [by right | done].
  - destruct (decide (Z.to_nat i = k /\ Z.of_nat k < len x)) as [[<- Hk]|Hne].
    + rewrite decide_True; [done|]. split; [|done]. rewrite Z2Nat.id by done. left.
    + rewrite decide_False; [done|]. intros [Hin Hk].
      apply elem_of_cons in Hin as [<-|Hin]; [|tauto].
      apply Hne. split; [lia | done].
Qed.

Lemma threads_len c threads x :
  len (foldl (fun x i => initialize_thread c i x) x threads) = len x.
Proof.
  revert x. induction threads as [|i threads IH]; intros x; [done|].
  cbn [foldl]. by rewrite IH, thread_len.
Qed.

Lemma threads_memory_length c threads x :
  length (memory (foldl (fun x i => initialize_thread c i x) x threads))
  = length (memory x).
Proof.
  revert x. induction threads as [|i threads IH]; intros x; [done|].
  cbn [foldl]. by rewrite IH, thread_memory_length.
Qed.

(** X13: on the device, where a store is not bounds-checked,
    [initialize[g, b](x)] writes the constant to the elements of [x] of
    index below [g * b] and to nothing else: the memory behind the last
    element of [x] and the elements not covered by the launch are left as
    they are, and the array and the memory keep their sizes. *)
Theorem initialize_never_writes_outside (g b : nat) (c : V) (x : device_array V) (k : nat) :
  allocated x ->
  len (initialize g b c x) = len x
  /\ length (memory (initialize g b c x)) = length (memory x)
  /\ memory (initialize g b c x) !! k
     = (if decide ((k < g * b)%nat /\ Z.of_nat k < len x) then Some c
        else memory x !! k)
  /\ (len x <= Z.of_nat k -> memory (initialize g b c x) !! k = memory x !! k).
Proof.
  intros Hal.
  assert (memory (initialize g b c x) !! k
          = if decide ((k < g * b)%nat /\ Z.of_nat k < len x) then Some c
            else memory x !! k) as Hlookup.
  { unfold initialize. rewrite threads_memory_lookup; [| |done].
    2:{ apply Forall_forall. intros i Hin%CAIFacts.elem_of_grid1. lia. }
    destruct (decide ((k < g * b)%nat /\ Z.of_nat k < len x)) as [Hk|Hk].
    - rewrite decide_True; [done|]. rewrite CAIFacts.elem_of_grid1. lia.
    - rewrite decide_False; [done|]. rewrite CAIFacts.elem_of_grid1. lia. }
  split; [apply threads_len|].
  split; [apply threads_memory_length|].
  split; [exact Hlookup|].
  intros Hout. rewrite Hlookup, decide_False; [done | lia].
Qed.

(** When the memory is the array itself, the device kernel is the kernel
    on the list of the elements. *)
Lemma initialize_on_the_array (g b : nat) (c : V) (l : list V) :
  memory (initialize g b c {| len := Z.of_nat (length l); memory := l |})
  = CAI.initialize g b c l.
Proof.
  unfold initialize, CAI.initialize. generalize (grid1 g b). intros threads.
  revert l. induction threads as [|i threads IH]; intros l; [done|].
  cbn [foldl]. unfold initialize_thread at 2, CAI.initialize_thread at 2.
  cbn [len memory]. case_decide; [|apply IH].
  unfold setitem. cbn [len memory].
  rewrite <- (length_insert l (Z.to_nat i) c) at 1. apply IH.
Qed.

End Facts.
End CAIMemoryFacts.

(** ** The other lowerings *)

Module LoweringFacts.
Import Quaternion Builder QuaternionAttrs.

Section Facts.
Context {F : Type} `{Float64 F} `{MathLib F}.

Lemma lowered_phi (q : Quaternion F) :
  run_lowering (cuda_quaternion_phi (Argument 0)) [struct_of q]
  = Some (VDouble (target_atan
            (f_mul two (f_div (phi_numerator q) (phi_denominator q))))).
Proof. by vm_compute. Qed.

Lemma lowered_psi (q : Quaternion F) :
  run_lowering (cuda_quaternion_psi (Argument 0)) [struct_of q]
  = Some (VDouble (target_atan
            (f_mul two (f_div (psi_numerator q) (psi_denominator q))))).
Proof. by vm_compute. Qed.

Lemma lowered_theta (q : Quaternion F) :
  run_lowering (cuda_quaternion_theta (Argument 0)) [struct_of q]
  = Some (VDouble (f_sub f_negzero (target_asin
            (f_mul two (f_sub (f_mul (b q) (d q)) (f_mul (a q) (c q))))))).
Proof. by vm_compute. Qed.

(** X15: where the denominator is not zero, doubling commutes with the
    division and Python's [math.atan] returns what the target's [atan]
    does, the code emitted by [cuda_quaternion_phi] computes the value of
    the Python property [Quaternion.phi]. *)
Theorem cuda_quaternion_phi_agrees (q : Quaternion F) :
  f_is_zero (phi_denominator q) = false ->
  f_mul two (f_div (phi_numerator q) (phi_denominator q))
  = f_div (f_mul two (phi_numerator q)) (phi_denominator q) ->
  math_atan (f_div (f_mul two (phi_numerator q)) (phi_denominator q))
  = inl (target_atan (f_div (f_mul two (phi_numerator q)) (phi_denominator q))) ->
  exists v, phi q = inl v
            /\ run_lowering (cuda_quaternion_phi (Argument 0)) [struct_of q]
               = Some (VDouble v).
Proof.
  intros Hden Hcomm Hatan. eexists. split.
  - unfold phi, py_div. rewrite Hden. exact Hatan.
  - rewrite lowered_phi. by rewrite Hcomm.
Qed.

(** X16: where the denominator is not zero, doubling commutes with the
    division and Python's [math.atan] returns what the target's [atan]
    does, the code emitted by [cuda_quaternion_psi] computes the value of
    the Python property [Quaternion.psi]. *)
Theorem cuda_quaternion_psi_agrees (q : Quaternion F) :
  f_is_zero (psi_denominator q) = false ->
  f_mul two (f_div (psi_numerator q) (psi_denominator q))
  = f_div (f_mul two (psi_numerator q)) (psi_denominator q) ->
  math_atan (f_div (f_mul two (psi_numerator q)) (psi_denominator q))
  = inl (target_atan (f_div (f_mul two (psi_numerator q)) (psi_denominator q))) ->
  exists v, psi q = inl v
            /\ run_lowering (cuda_quaternion_psi (Argument 0)) [struct_of q]
               = Some (VDouble v).
Proof.
  intros Hden Hcomm Hatan. eexists. split.
  - unfold psi, py_div. rewrite Hden. exact Hatan.
  - rewrite lowered_psi. by rewrite Hcomm.
Qed.

(** X17: where Python's [math.asin] returns what the target's [asin] does
    and negating the result is subtracting it from [-0.0], the code emitted
    by [cuda_quaternion_theta] computes the value of [Quaternion.theta]. *)
Theorem cuda_quaternion_theta_agrees (q : Quaternion F) :
  let x := f_mul two (f_sub (f_mul (b q) (d q)) (f_mul (a q) (c q))) in
  math_asin x = inl (target_asin x) ->
  f_neg (target_asin x) = f_sub f_negzero (target_asin x) ->
  exists v, theta q = inl v
            /\ run_lowering (cuda_quaternion_theta (Argument 0)) [struct_of q]
               = Some (VDouble v).
Proof.
  intros x Hasin Hneg. eexists. split.
  - unfold theta. fold x. rewrite Hasin. reflexivity.
  - rewrite lowered_theta. fold x. by rewrite Hneg.
Qed.

(** X18: the emitted code of the three attributes never fails: it returns a
    double for every quaternion, also where the Python property raises, as
    [Quaternion.phi] and [Quaternion.psi] do with [ZeroDivisionError] when
    their denominator is zero. *)
Theorem lowered_attributes_are_total (q : Quaternion F) :
  (exists v, run_lowering (cuda_quaternion_phi (Argument 0)) [struct_of q]
             = Some (VDouble v))
  /\ (exists v, run_lowering (cuda_quaternion_theta (Argument 0)) [struct_of q]
                = Some (VDouble v))
  /\ (exists v, run_lowering (cuda_quaternion_psi (Argument 0)) [struct_of q]
                = Some (VDouble v))
  /\ phi q = (if f_is_zero (phi_denominator q) then inr ZeroDivisionError
              else math_atan (f_div (f_mul two (phi_numerator q)) (phi_denominator q)))
  /\ psi q = (if f_is_zero (psi_denominator q) then inr ZeroDivisionError
              else math_atan (f_div (f_mul two (psi_numerator q)) (psi_denominator q))).
Proof.
  rewrite lowered_phi, lowered_theta, lowered_psi.
  repeat split; eauto.
  - unfold phi, py_div. by destruct (f_is_zero (phi_denominator q)).
  - unfold psi, py_div. by destruct (f_is_zero (psi_denominator q)).
Qed.

(** X19: the lowered constructors build the struct of their arguments, in
    the order of the data model, and no member keeps the zero the slot was
    filled with. *)
Theorem constructors_build_their_arguments (a0 b0 c0 d0 lo0 hi0 : F) :
  run_lowering (impl_quaternion (Argument 0, Argument 1, Argument 2, Argument 3))
    [VDouble a0; VDouble b0; VDouble c0; VDouble d0]
  = Some (struct_of {| a := a0; b := b0; c := c0; d := d0 |})
  /\ run_lowering (Interval.impl_interval (Argument 0, Argument 1))
       [VDouble lo0; VDouble hi0]
     = Some (VStruct [lo0; hi0]).
Proof. split; by vm_compute. Qed.

(** X20: [Interval(lo, hi).width], compiled through [impl_interval] and
    [cuda_Interval_width], is the [hi - lo] of the Python property
    [Interval.width]. *)
Theorem constructed_width_is_width (lo0 hi0 : F) :
  run_lowering (Interval.constructed_width (Argument 0, Argument 1))
    [VDouble lo0; VDouble hi0]
  = Some (VDouble (Interval.width {| Interval.lo := lo0; Interval.hi := hi0 |})).
Proof. by vm_compute. Qed.

End Facts.

(** In binary64 doubling does not always commute with the division: for
    [q = (1, 3u, 0, 1)], [u] the least positive double, the lowering takes
    the arc tangent of [4u] and the Python property that of [3u]. *)
Example doubling_does_not_commute :
  let q := {| a := 1; b := 0x3p-1074; c := 0; d := 1 |}%float in
  f_mul two (f_div (phi_numerator q) (phi_denominator q)) = 0x4p-1074%float
  /\ f_div (f_mul two (phi_numerator q)) (phi_denominator q) = 0x3p-1074%float.
Proof. by vm_compute. Qed.

End LoweringFacts.

(** ** More runs *)

Module MoreScenarios.

Import CuPy.

Lemma nothing_leaks_once_all_dropped_witness :
  (fresh_run [OpInitialize; OpMemalloc 1024; OpMemalloc 512; OpDrop 1; OpReset; OpDrop 0]
             (__init__ true Arena.fresh_arena)
   /\ finalizers_run
        (run [OpInitialize; OpMemalloc 1024; OpMemalloc 512; OpDrop 1; OpReset; OpDrop 0]
             (__init__ true Arena.fresh_arena)).2
      = allocations_made
          (run [OpInitialize; OpMemalloc 1024; OpMemalloc 512; OpDrop 1; OpReset; OpDrop 0]
               (__init__ true Arena.fresh_arena)).2)
  /\ _allocations
       (self (run [OpInitialize; OpMemalloc 1024; OpMemalloc 512; OpDrop 1; OpReset; OpDrop 0]
                  (__init__ true Arena.fresh_arena)).2)
     = ∅.
Proof.
  assert (fresh_run [OpInitialize; OpMemalloc 1024; OpMemalloc 512; OpDrop 1; OpReset; OpDrop 0]
                    (__init__ true Arena.fresh_arena)) as Hfresh.
  { vm_compute. repeat split. }
  assert (finalizers_run
            (run [OpInitialize; OpMemalloc 1024; OpMemalloc 512; OpDrop 1; OpReset; OpDrop 0]
                 (__init__ true Arena.fresh_arena)).2
          = allocations_made
              (run [OpInitialize; OpMemalloc 1024; OpMemalloc 512; OpDrop 1; OpReset; OpDrop 0]
                   (__init__ true Arena.fresh_arena)).2) as Hall.
  { vm_compute. reflexivity. }
  split; [by split|].
  exact (proj1 (CuPyTraceFacts.nothing_leaks_once_all_dropped
                  true Arena.fresh_arena _ Hfresh Hall)).
Defined.

Lemma memalloc_then_finalizer_restores_table_witness :
  (memalloc 64 (run [OpInitialize] (__init__ false Arena.fresh_arena)).2
   = (Ok {| device_pointer := 4096; memsize := 64;
            _finalizer := {| fin_nbytes := 64; fin_ptr := 4096; fin_logging := false |};
            alive := true |},
      (memalloc 64 (run [OpInitialize] (__init__ false Arena.fresh_arena)).2).2)
   /\ _allocations (self (run [OpInitialize] (__init__ false Arena.fresh_arena)).2)
        !! 4096 = None)
  /\ _allocations
       (self (run_finalizer
                {| fin_nbytes := 64; fin_ptr := 4096; fin_logging := false |}
                (memalloc 64 (run [OpInitialize] (__init__ false Arena.fresh_arena)).2).2).2)
     = _allocations (self (run [OpInitialize] (__init__ false Arena.fresh_arena)).2).
Proof.
  assert (memalloc 64 (run [OpInitialize] (__init__ false Arena.fresh_arena)).2
          = (Ok {| device_pointer := 4096; memsize := 64;
                   _finalizer := {| fin_nbytes := 64; fin_ptr := 4096; fin_logging := false |};
                   alive := true |},
             (memalloc 64 (run [OpInitialize] (__init__ false Arena.fresh_arena)).2).2))
    as Hm by (vm_compute; reflexivity).
  assert (_allocations (self (run [OpInitialize] (__init__ false Arena.fresh_arena)).2)
            !! 4096 = None) as Hfresh by (vm_compute; reflexivity).
  split; [by split|].
  exact (proj1 (proj2 (CuPyTraceFacts.memalloc_then_finalizer_restores_table
                         64 _ _ _ Hm Hfresh))).
Defined.

Lemma drops_in_any_order_witness :
  (fresh_run [OpInitialize; OpMemalloc 1024; OpMemalloc 512; OpMemalloc 16]
             (__init__ true Arena.fresh_arena)
   /\ [0; 2]%nat ≡ₚ [2; 0]%nat)
  /\ pointers (run (OpDrop <$> [0; 2]%nat)
                 (run [OpInitialize; OpMemalloc 1024; OpMemalloc 512; OpMemalloc 16]
                      (__init__ true Arena.fresh_arena)).2).2
     = pointers (run (OpDrop <$> [2; 0]%nat)
                   (run [OpInitialize; OpMemalloc 1024; OpMemalloc 512; OpMemalloc 16]
                        (__init__ true Arena.fresh_arena)).2).2.
Proof.
  assert (fresh_run [OpInitialize; OpMemalloc 1024; OpMemalloc 512; OpMemalloc 16]
                    (__init__ true Arena.fresh_arena)) as Hfresh.
  { vm_compute. repeat split. }
  assert ([0; 2]%nat ≡ₚ [2; 0]%nat) as Hperm by apply perm_swap.
  split; [by split|].
  exact (proj1 (proj2 (CuPyTraceFacts.drops_in_any_order
                         true Arena.fresh_arena _ _ _ Hfresh Hperm))).
Defined.

Lemma finalizer_frees_the_address_allocated_witness :
  (Simple.memalloc 1000 (Simple.new_world Simple.fresh_device)
   = (Ok {| Simple.device_pointer := 512; Simple.memsize := 1000;
            Simple._finalizer := {| Simple.fin_ptr := 512 |} |},
      (Simple.memalloc 1000 (Simple.new_world Simple.fresh_device)).2)
   /\ 0 <= 512 < 2 ^ 64)
  /\ Simple.driver_calls
       (Simple.run_finalizer {| Simple.fin_ptr := 512 |}
          (Simple.memalloc 1000 (Simple.new_world Simple.fresh_device)).2).2
     = Simple.driver_calls (Simple.new_world Simple.fresh_device)
       ++ [Simple.CallCudaMalloc (c_size_t 1000); Simple.CallCudaFree 512].
Proof.
  assert (Simple.memalloc 1000 (Simple.new_world Simple.fresh_device)
          = (Ok {| Simple.device_pointer := 512; Simple.memsize := 1000;
                   Simple._finalizer := {| Simple.fin_ptr := 512 |} |},
             (Simple.memalloc 1000 (Simple.new_world Simple.fresh_device)).2))
    as Hm by (vm_compute; reflexivity).
  assert (0 <= 512 < 2 ^ 64) as Hrange by lia.
  split; [by split|].
  exact (proj2 (proj2 (SimpleMoreFacts.finalizer_frees_the_address_allocated
                         1000 _ _ _ Hm Hrange))).
Defined.

Import Mandel MandelScript.

Lemma create_fractal_paints_its_threads_witness :
  (well_shaped {| shape0 := 2; shape1 := 3; data := [7; 7; 7; 7; 7; 7] |}
   /\ 0 <= 1 < 3 /\ 0 <= 0 < 2
   /\ 1 < Z.of_nat (2 * 2) /\ 0 < Z.of_nat (1 * 2))
  /\ getitem
       (create_fractal (F := float) {| gx := 2; gy := 1; bx := 2; by_ := 2 |}
          (-2)%float 1%float (-1)%float 1%float
          {| shape0 := 2; shape1 := 3; data := [7; 7; 7; 7; 7; 7] |} 20) 0 1
     = Some 2.
Proof.
  assert (well_shaped {| shape0 := 2; shape1 := 3; data := [7; 7; 7; 7; 7; 7] |}) as Hws.
  { unfold well_shaped. cbn. repeat split; lia. }
  assert (0 <= 1 < 3) as Hx by lia.
  assert (0 <= 0 < 2) as Hy by lia.
  assert (1 < Z.of_nat (2 * 2)) as Hgx by (cbn; lia).
  assert (0 < Z.of_nat (1 * 2)) as Hgy by (cbn; lia).
  split; [by repeat split|].
  rewrite (MandelScriptFacts.create_fractal_paints_its_threads
             (F := float) (-2)%float 1%float (-1)%float 1%float 20
             {| gx := 2; gy := 1; bx := 2; by_ := 2 |}
             {| shape0 := 2; shape1 := 3; data := [7; 7; 7; 7; 7; 7] |} 1 0
             Hws Hx Hy Hgx Hgy).
  vm_compute. reflexivity.
Defined.

Lemma script_launch_paints_every_pixel_witness :
  (0 < 2 /\ well_shaped (zeros 2 3) /\ 0 <= 2 < 3 /\ 0 <= 1 < 2)
  /\ getitem
       (create_fractal (F := float) (script_launch 3 2 2)
          (-2)%float 1%float (-1)%float 1%float (zeros 2 3) 20) 1 2
     = Some 255.
Proof.
  assert (well_shaped (zeros 2 3)) as Hws.
  { unfold well_shaped. cbn. repeat split; lia. }
  assert (0 < 2) as Hn by lia.
  assert (0 <= 2 < 3) as Hx by lia.
  assert (0 <= 1 < 2) as Hy by lia.
  split; [by repeat split|].
  rewrite (MandelScriptFacts.script_launch_paints_every_pixel
             (F := float) (-2)%float 1%float (-1)%float 1%float 20
             2 (zeros 2 3) 2 1 Hn Hws Hx Hy).
  vm_compute. reflexivity.
Defined.

Lemma create_fractal_any_thread_order_witness :
  reverse (grid {| gx := 2; gy := 1; bx := 2; by_ := 2 |})
  ≡ₚ grid {| gx := 2; gy := 1; bx := 2; by_ := 2 |}
  /\ run_threads (F := float) (-2)%float 1%float (-1)%float 1%float 20
       (reverse (grid {| gx := 2; gy := 1; bx := 2; by_ := 2 |}))
       {| shape0 := 2; shape1 := 3; data := [7; 7; 7; 7; 7; 7] |}
     = create_fractal (F := float) {| gx := 2; gy := 1; bx := 2; by_ := 2 |}
         (-2)%float 1%float (-1)%float 1%float
         {| shape0 := 2; shape1 := 3; data := [7; 7; 7; 7; 7; 7] |} 20.
Proof.
  assert (reverse (grid {| gx := 2; gy := 1; bx := 2; by_ := 2 |})
          ≡ₚ grid {| gx := 2; gy := 1; bx := 2; by_ := 2 |}) as Hperm
    by apply reverse_Permutation.
  split; [exact Hperm|].
  exact (MandelScriptFacts.create_fractal_any_thread_order
           (F := float) (-2)%float 1%float (-1)%float 1%float 20 _ _ _ Hperm).
Defined.

Lemma create_fractal_keeps_bytes_witness :
  Forall (fun v => 0 <= v < 256) [7; 7; 7; 7; 7; 7]
  /\ length (data (create_fractal (F := float) {| gx := 2; gy := 1; bx := 2; by_ := 2 |}
                     (-2)%float 1%float (-1)%float 1%float
                     {| shape0 := 2; shape1 := 3; data := [7; 7; 7; 7; 7; 7] |} 20))
     = 6%nat.
Proof.
  assert (Forall (fun v => 0 <= v < 256) [7; 7; 7; 7; 7; 7]) as Hb.
  { repeat constructor; lia. }
  split; [exact Hb|].
  exact (proj2 (MandelScriptFacts.create_fractal_keeps_bytes
                  (F := float) (-2)%float 1%float (-1)%float 1%float 20
                  {| gx := 2; gy := 1; bx := 2; by_ := 2 |}
                  {| shape0 := 2; shape1 := 3; data := [7; 7; 7; 7; 7; 7] |} Hb)).
Defined.

Lemma mandel_result_is_final_witness :
  (5 <= 20 /\ mandel (F := float) 0.5%float 0.5%float 5 <> 255)
  /\ mandel (F := float) 0.5%float 0.5%float 20
     = mandel (F := float) 0.5%float 0.5%float 5.
Proof.
  assert (5 <= 20) as Hle by lia.
  assert (mandel (F := float) 0.5%float 0.5%float 5 <> 255) as Hne
    by (vm_compute; discriminate).
  split; [by split|].
  exact (MandelScriptFacts.mandel_result_is_final
           (F := float) 0.5%float 0.5%float 5 20 Hle Hne).
Defined.

Lemma mandel_255_means_no_escape_witness :
  (20 <= 255 /\ 20 <= 256)
  /\ uint8 (mandel (F := float) 0.5%float 0.5%float 20)
     = mandel (F := float) 0.5%float 0.5%float 20.
Proof.
  assert (20 <= 256) as Hle by lia.
  split; [split; lia|].
  exact (proj2 (MandelScriptFacts.mandel_255_means_no_escape
                  (F := float) 0.5%float 0.5%float 20) Hle).
Defined.

Lemma initialize_sets_everything_witness :
  (length [1; 2; 3] <= 1 * 4)%nat
  /\ CAI.initialize 1 4 9 [1; 2; 3] = replicate (length [1; 2; 3]) 9.
Proof.
  assert (length [1; 2; 3] <= 1 * 4)%nat as Hcover by (cbn; lia).
  split; [exact Hcover|].
  exact (CAIFacts.initialize_sets_everything 1 4 9 [1; 2; 3] Hcover).
Defined.

Import Quaternion QuaternionAttrs.

Lemma cuda_quaternion_phi_agrees_witness :
  (f_is_zero (phi_denominator (F := float) {| a := 1; b := 2; c := 9.75; d := 5 |}%float)
   = false)
  /\ exists v : float,
       phi {| a := 1; b := 2; c := 9.75; d := 5 |}%float = inl v
       /\ Builder.run_lowering (cuda_quaternion_phi (Builder.Argument 0))
            [struct_of {| a := 1; b := 2; c := 9.75; d := 5 |}%float]
          = Some (Builder.VDouble v).
Proof.
  split; [by vm_compute|].
  apply (LoweringFacts.cuda_quaternion_phi_agrees (F := float)); by vm_compute.
Defined.

Lemma cuda_quaternion_psi_agrees_witness :
  (f_is_zero (psi_denominator (F := float) {| a := 1; b := 2; c := 9.75; d := 5 |}%float)
   = false)
  /\ exists v : float,
       psi {| a := 1; b := 2; c := 9.75; d := 5 |}%float = inl v
       /\ Builder.run_lowering (cuda_quaternion_psi (Builder.Argument 0))
            [struct_of {| a := 1; b := 2; c := 9.75; d := 5 |}%float]
          = Some (Builder.VDouble v).
Proof.
  split; [by vm_compute|].
  apply (LoweringFacts.cuda_quaternion_psi_agrees (F := float)); by vm_compute.
Defined.

Lemma cuda_quaternion_theta_agrees_witness :
  (f_neg (target_asin (F := float) 0.25%float)
   = f_sub f_negzero (target_asin (F := float) 0.25%float))
  /\ exists v : float,
       theta {| a := 1; b := 0.5; c := 0.125; d := 0.5 |}%float = inl v
       /\ Builder.run_lowering (cuda_quaternion_theta (Builder.Argument 0))
            [struct_of {| a := 1; b := 0.5; c := 0.125; d := 0.5 |}%float]
          = Some (Builder.VDouble v).
Proof.
  split; [by vm_compute|].
  apply (LoweringFacts.cuda_quaternion_theta_agrees (F := float)); by vm_compute.
Defined.

Lemma initialize_never_writes_outside_witness :
  CAIMemory.allocated {| CAIMemory.len := 3; CAIMemory.memory := [1; 2; 3; 4; 5] |}
  /\ CAIMemory.memory
       (CAIMemory.initialize 1 4 9
          {| CAIMemory.len := 3; CAIMemory.memory := [1; 2; 3; 4; 5] |})
     = [9; 9; 9; 4; 5]
  /\ CAIMemory.memory
       (CAIMemory.initialize 1 4 9
          {| CAIMemory.len := 3; CAIMemory.memory := [1; 2; 3; 4; 5] |}) !! 3%nat
     = [1; 2; 3; 4; 5] !! 3%nat.
Proof.
  assert (CAIMemory.allocated
            {| CAIMemory.len := 3; CAIMemory.memory := [1; 2; 3; 4; 5] |}) as Hal.
  { unfold CAIMemory.allocated. cbn. lia. }
  split; [exact Hal|]. split; [by vm_compute|].
  apply (CAIMemoryFacts.initialize_never_writes_outside
           1 4 9 {| CAIMemory.len := 3; CAIMemory.memory := [1; 2; 3; 4; 5] |} 3 Hal).
  cbn. lia.
Defined.

End MoreScenarios.
